(** * The VKE SDK client (cluster-autoscaler/cloudprovider/vke/sdk)

    A shallow embedding of [vke.go], [configuration.go] and [nodepool.go]:
    clock synchronisation ([getTimeDelta]), request construction and signing
    ([NewRequest]), dispatch ([Do]), response decoding ([UnmarshalResponse]),
    the regional fallback of [CallAPIWithContext], and the node-pool
    operations built on top of it.

    Go strings and byte slices are [string] (a list of 8-bit characters),
    [int], [int64] and [time.Duration] are [Z], [uint32] is [N], a nil-able
    pointer or interface is an [option].  The client is a mutable object: every
    operation takes the client record and returns the updated one. *)

From Stdlib Require Import ZArith String Ascii List Bool Lia.
From stdpp Require Import base option gmap strings list pretty.

Local Open Scope string_scope.
Local Open Scope Z_scope.
Local Open Scope list_scope.

Set Warnings "-register-all".

(** ** Durations and instants ([time]) *)

Definition min_int64 : Z := - 2 ^ 63.
Definition max_int64 : Z := 2 ^ 63 - 1.

(** [time.Second], in nanoseconds. *)
Definition Second : Z := 1000000000.

(** [DefaultTimeout]: api requests time out after 180s. *)
Definition DefaultTimeout : Z := 180 * Second.

(** An instant is its number of nanoseconds since the Unix epoch. *)
Definition time_Unix (sec : Z) : Z := sec * Second.

(** [t.Sub(u)] saturates at the bounds of [Duration]. *)
Definition time_Sub (t u : Z) : Z := Z.max min_int64 (Z.min max_int64 (t - u)).

(** [-d] on an [int64]: the least value is its own negation. *)
Definition neg_Duration (d : Z) : Z := if d =? min_int64 then min_int64 else - d.

Definition time_Add (t d : Z) : Z := t + d.

(** [t.Unix()]: whole seconds, rounded towards minus infinity. *)
Definition time_ToUnix (t : Z) : Z := t / Second.

(** ** Errors *)

(** Modelled from the spec: the declaration of [APIError] is not among the
    source files.  The spec gives it a numeric status code, a human-readable
    message and an optional correlation identifier supplied by the server;
    these are the fields [Code], [Message] and [QueryID] that [vke.go] reads
    and writes. *)
Record APIError := mkAPIError {
  Code : Z;
  Message : string;
  QueryID : string
}.

Definition set_Message (m : string) (e : APIError) : APIError :=
  {| Code := Code e; Message := m; QueryID := QueryID e |}.

Definition set_QueryID (q : string) (e : APIError) : APIError :=
  {| Code := Code e; Message := Message e; QueryID := q |}.

(** The values of Go's [error] interface that flow through the client. *)
Inductive Error :=
| ErrAPI (e : APIError)                  (* *APIError, built by UnmarshalResponse *)
| ErrMarshal (msg : string)              (* json.Marshal *)
| ErrNewRequest (msg : string)           (* http.NewRequest *)
| ErrTransport (msg : string)            (* http.Client.Do *)
| ErrReadBody (msg : string)             (* ioutil.ReadAll *)
| ErrDecode (msg : string)               (* json.Unmarshal *)
| ErrConfig (msg : string)               (* fmt.Errorf in loadConfig *)
| ErrWrap (msg : string) (inner : Error). (* fmt.Errorf("...: %w", inner) *)

Definition is_APIError (e : Error) : bool :=
  match e with ErrAPI _ => true | _ => false end.

(** A Go result pair [(value, err)] of which exactly one side is meaningful. *)
Inductive Result (A : Type) :=
| Ok (a : A)
| Err (e : Error).
Arguments Ok {A} a.
Arguments Err {A} e.

(** ** HTTP headers ([http.Header], a map from canonical keys to value lists) *)

Definition is_lower (c : ascii) : bool :=
  let n := nat_of_ascii c in (97 <=? n)%nat && (n <=? 122)%nat.
Definition is_upper (c : ascii) : bool :=
  let n := nat_of_ascii c in (65 <=? n)%nat && (n <=? 90)%nat.
Definition is_digit (c : ascii) : bool :=
  let n := nat_of_ascii c in (48 <=? n)%nat && (n <=? 57)%nat.
Definition to_upper (c : ascii) : ascii :=
  if is_lower c then ascii_of_nat (nat_of_ascii c - 32) else c.
Definition to_lower (c : ascii) : ascii :=
  if is_upper c then ascii_of_nat (nat_of_ascii c + 32) else c.

(** [textproto.validHeaderFieldByte]: the token characters of RFC 7230. *)
Definition validHeaderFieldByte (c : ascii) : bool :=
  is_lower c || is_upper c || is_digit c ||
  existsb (fun d => Ascii.eqb c d)
    (list_ascii_of_string "!#$%&'*+-.^_`|~").

Fixpoint canonical_go (upper : bool) (s : string) : string :=
  match s with
  | EmptyString => EmptyString
  | String c rest =>
      let c' := if upper then to_upper c else to_lower c in
      String c' (canonical_go (Ascii.eqb c' "-"%char) rest)
  end.

(** [textproto.CanonicalMIMEHeaderKey]: a key with a byte that is not a token
    character is left as it is. *)
Definition CanonicalMIMEHeaderKey (s : string) : string :=
  if forallb validHeaderFieldByte (list_ascii_of_string s)
  then canonical_go true s else s.

Abbreviation Header := (gmap string (list string)).

Definition Header_Add (key value : string) (h : Header) : Header :=
  let k := CanonicalMIMEHeaderKey key in
  <[k := default [] (h !! k) ++ [value]]> h.

Definition Header_Set (key value : string) (h : Header) : Header :=
  <[CanonicalMIMEHeaderKey key := [value]]> h.

Definition Header_Get (key : string) (h : Header) : string :=
  match h !! CanonicalMIMEHeaderKey key with
  | Some (v :: _) => v
  | _ => ""
  end.

(** ** Node pools and nodes ([nodepool.go], [node.go]) *)

Record NodePool := {
  np_ID : string;
  np_Name : string;
  np_Flavor : string;
  np_Status : string;
  np_MinNodes : N;
  np_MaxNodes : N;
  np_CurrentNodes : Z
}.

Record Node := {
  ClusterUUID : string;
  InstanceName : string;
  Id : string;
  NodeGroupUUID : string;
  Current : Z;
  MinSize : Z;
  MaxSize : Z;
  Flavor : string;
  Status : string
}.

Definition zero_NodePool : NodePool :=
  {| np_ID := ""; np_Name := ""; np_Flavor := ""; np_Status := "";
     np_MinNodes := 0; np_MaxNodes := 0; np_CurrentNodes := 0 |}.

Definition zero_Node : Node :=
  {| ClusterUUID := ""; InstanceName := ""; Id := ""; NodeGroupUUID := "";
     Current := 0; MinSize := 0; MaxSize := 0; Flavor := ""; Status := "" |}.

(** [CreateNodePoolOpts]; pointers are options. *)
Record CreateNodePoolOpts := {
  co_Name : option string;
  co_FlavorName : string;
  co_Autoscale : bool;
  co_MonthlyBilled : bool;
  co_AntiAffinity : bool;
  co_MinNodes : option N;
  co_MaxNodes : option N
}.

(** [UpdateNodePoolOpts]: every field carries [omitempty].  [NodesToRemove]
    holds the elements of the slice: a nil slice and an empty one are the
    same list, and [omitempty] leaves out the one as the other. *)
Record UpdateNodePoolOpts := {
  MinNodes : option N;
  MaxNodes : option N;
  Autoscale : option bool;
  NodesToRemove : list string
}.

(** ** JSON documents produced by [json.Marshal] *)

Inductive Json :=
| JNull
| JBool (b : bool)
| JNum (n : Z)
| JStr (s : string)
| JArr (items : list Json)
| JObj (fields : list (string * Json)).

(** The double-quote character. *)
Definition dq : string := String (ascii_of_nat 34) EmptyString.

Definition join (sep : string) (l : list string) : string :=
  match l with
  | [] => ""
  | x :: rest => fold_left (fun acc y => acc +:+ sep +:+ y) rest x
  end.

Section Render.
(** [encoding/json]'s quoted and escaped form of a string value. *)
Variable json_string : string -> string.

Fixpoint render (j : Json) : string :=
  match j with
  | JNull => "null"
  | JBool true => "true"
  | JBool false => "false"
  | JNum n => pretty n
  | JStr s => json_string s
  | JArr items => "[" +:+ join "," (map render items) +:+ "]"
  | JObj fields =>
      "{" +:+
      join "," (map (fun kv => dq +:+ fst kv +:+ dq +:+ ":" +:+ render (snd kv)) fields)
      +:+ "}"
  end.
End Render.

(** A field tagged [omitempty] is left out when its pointer is nil. *)
Definition omitempty {A} (key : string) (enc : A -> Json) (v : option A)
  : list (string * Json) :=
  match v with
  | None => []
  | Some x => [(key, enc x)]
  end.

Definition JNumN (n : N) : Json := JNum (Z.of_N n).

(** The fields of [UpdateNodePoolOpts] in declaration order; an [omitempty]
    slice is left out when its length is zero. *)
Definition Json_of_UpdateNodePoolOpts (o : UpdateNodePoolOpts) : Json :=
  JObj (omitempty "minNodes" JNumN (MinNodes o) ++
        omitempty "maxNodes" JNumN (MaxNodes o) ++
        omitempty "autoscale" JBool (Autoscale o) ++
        match NodesToRemove o with
        | [] => []
        | l => [("nodesToRemove", JArr (map JStr l))]
        end).

Definition Json_of_CreateNodePoolOpts (o : CreateNodePoolOpts) : Json :=
  JObj (omitempty "name" JStr (co_Name o) ++
        [("flavorName", JStr (co_FlavorName o));
         ("autoscale", JBool (co_Autoscale o));
         ("monthlyBilled", JBool (co_MonthlyBilled o));
         ("antiAffinity", JBool (co_AntiAffinity o))] ++
        omitempty "minNodes" JNumN (co_MinNodes o) ++
        omitempty "maxNodes" JNumN (co_MaxNodes o)).

(** A nil pointer inside a non-nil interface marshals to [null]. *)
Definition Json_of_ptr {A} (enc : A -> Json) (p : option A) : Json :=
  match p with
  | None => JNull
  | Some x => enc x
  end.

(** ** The signing input of [NewRequest]

    [fmt.Sprintf("%s+%s+%s+%s%s+%d", AppSecret, method, endpoint, path, body,
    timestamp)]; a nil body prints as the empty string. *)
Definition signing_input (secret method endpoint path body : string) (timestamp : Z)
  : string :=
  secret +:+ "+" +:+ method +:+ "+" +:+ endpoint +:+ "+" +:+ path +:+ body
         +:+ "+" +:+ pretty timestamp.

(** The construction in the words of the specification: the six fields joined
    by one fixed delimiter. *)
Definition signing_input_spec (secret method endpoint path body : string) (timestamp : Z)
  : string :=
  join "+" [secret; method; endpoint; path; body; pretty timestamp].

(** ** The client, requests, responses and the outside world *)

Record Client := {
  AppKey : string;
  AppSecret : string;             (* the application secret key *)
  endpoint : string;              (* API endpoint *)
  ClientTimeout : Z;              (* c.Client.Timeout, of the underlying http.Client *)
  Logger : bool;                  (* whether c.Logger is non-nil *)
  timeDeltaMutex : bool;          (* true while the mutex is held *)
  timeDeltaDone : bool;
  timeDelta : Z;
  Timeout : Z;
  openStackToken : string         (* keystone token; empty in signed mode *)
}.

Definition set_mutex (b : bool) (c : Client) : Client :=
  {| AppKey := AppKey c; AppSecret := AppSecret c; endpoint := endpoint c;
     ClientTimeout := ClientTimeout c; Logger := Logger c;
     timeDeltaMutex := b; timeDeltaDone := timeDeltaDone c;
     timeDelta := timeDelta c; Timeout := Timeout c;
     openStackToken := openStackToken c |}.

Definition set_timeDelta (d : Z) (done : bool) (c : Client) : Client :=
  {| AppKey := AppKey c; AppSecret := AppSecret c; endpoint := endpoint c;
     ClientTimeout := ClientTimeout c; Logger := Logger c;
     timeDeltaMutex := timeDeltaMutex c; timeDeltaDone := done;
     timeDelta := d; Timeout := Timeout c;
     openStackToken := openStackToken c |}.

Definition set_ClientTimeout (t : Z) (c : Client) : Client :=
  {| AppKey := AppKey c; AppSecret := AppSecret c; endpoint := endpoint c;
     ClientTimeout := t; Logger := Logger c;
     timeDeltaMutex := timeDeltaMutex c; timeDeltaDone := timeDeltaDone c;
     timeDelta := timeDelta c; Timeout := Timeout c;
     openStackToken := openStackToken c |}.

Definition set_endpoint (e : string) (c : Client) : Client :=
  {| AppKey := AppKey c; AppSecret := AppSecret c; endpoint := e;
     ClientTimeout := ClientTimeout c; Logger := Logger c;
     timeDeltaMutex := timeDeltaMutex c; timeDeltaDone := timeDeltaDone c;
     timeDelta := timeDelta c; Timeout := Timeout c;
     openStackToken := openStackToken c |}.

Definition set_openStackToken (t : string) (c : Client) : Client :=
  {| AppKey := AppKey c; AppSecret := AppSecret c; endpoint := endpoint c;
     ClientTimeout := ClientTimeout c; Logger := Logger c;
     timeDeltaMutex := timeDeltaMutex c; timeDeltaDone := timeDeltaDone c;
     timeDelta := timeDelta c; Timeout := Timeout c;
     openStackToken := t |}.

(** A [context.Context]: the background context or one made by the caller. *)
Inductive Context := Background | CallerContext (id : nat).

Record Request := {
  Method : string;
  URL : string;                   (* req.URL.String() *)
  ReqHeader : Header;
  ReqBody : string;               (* the bytes behind bytes.NewReader(body) *)
  ReqContext : Context
}.

Definition WithContext (ctx : Context) (r : Request) : Request :=
  {| Method := Method r; URL := URL r; ReqHeader := ReqHeader r;
     ReqBody := ReqBody r; ReqContext := ctx |}.

Record Response := {
  StatusCode : Z;
  RespHeader : Header;
  RespBody : Result string       (* what ioutil.ReadAll returns for the body *)
}.

Inductive LogEntry := LogRequest (r : Request) | LogResponse (r : Response).

(** What the client does to its surroundings. *)
Record World := {
  dispatched : list Request;      (* requests handed to the http.Client, oldest first *)
  logged : list LogEntry;         (* calls of the Logger, oldest first *)
  hashed : list string;           (* inputs written to a sha1 hasher, oldest first *)
  clock_reads : nat               (* how often the local clock was read *)
}.

Definition empty_World : World :=
  {| dispatched := []; logged := []; hashed := []; clock_reads := 0 |}.

Definition add_dispatch (r : Request) (w : World) : World :=
  {| dispatched := dispatched w ++ [r]; logged := logged w;
     hashed := hashed w; clock_reads := clock_reads w |}.

Definition add_log (e : LogEntry) (w : World) : World :=
  {| dispatched := dispatched w; logged := logged w ++ [e];
     hashed := hashed w; clock_reads := clock_reads w |}.

Definition add_hash (s : string) (w : World) : World :=
  {| dispatched := dispatched w; logged := logged w;
     hashed := hashed w ++ [s]; clock_reads := clock_reads w |}.

Definition tick (w : World) : World :=
  {| dispatched := dispatched w; logged := logged w;
     hashed := hashed w; clock_reads := S (clock_reads w) |}.

(** The values a result sink points to. *)
Inductive Value :=
| VInt64 (z : Z)                         (* &timestamp in getTime *)
| VNodePools (l : list NodePool)         (* &nodepools *)
| VNodePoolPtr (p : option NodePool)     (* &nodepool, a pointer to a *NodePool *)
| VNodes (l : list Node)                 (* &nodes *)
| VNode (n : Node)                       (* node, a *Node *)
| VOther (raw : string).                 (* a sink of a caller outside the package *)

(** The request bodies handed to [json.Marshal]. *)
Inductive Payload :=
| UpdateOpts (o : option UpdateNodePoolOpts)
| CreateOpts (o : option CreateNodePoolOpts)
| OtherPayload (raw : string).

(** [url.Values]; [NewRequest] receives them and never reads them. *)
Definition url_Values := list (string * list string).

(** ** Outcomes of a call in one goroutine

    [sync.Mutex] is not reentrant: a goroutine that calls [Lock] on a mutex
    it holds itself waits for an [Unlock] that only it could make. *)

Inductive Outcome (A : Type) :=
| Ret (a : A)        (* the call returns *)
| Deadlock           (* the call blocks for ever in Lock on a mutex its own chain holds *)
| OutOfFuel.         (* the bound on the call depth of the model was reached *)
Arguments Ret {A} a.
Arguments Deadlock {A}.
Arguments OutOfFuel {A}.

#[global] Instance Outcome_ret : MRet Outcome := @Ret.

#[global] Instance Outcome_bind : MBind Outcome := fun A B k m =>
  match m with
  | Ret a => k a
  | Deadlock => Deadlock
  | OutOfFuel => OutOfFuel
  end.

(** [o1] is [o2] cut short by the bound on the call depth. *)
Definition approx {A} (o1 o2 : Outcome A) : Prop := o1 = OutOfFuel \/ o1 = o2.

(** [c'] is [c] up to the timeout of its http.Client. *)
Definition same_client (c c' : Client) : Prop :=
  c' = set_ClientTimeout (ClientTimeout c') c.

(** [strings.Contains(s, "/")]. *)
Fixpoint contains_slash (s : string) : bool :=
  match s with
  | EmptyString => false
  | String c rest => Ascii.eqb c "/"%char || contains_slash rest
  end.

(** ** The client's operations *)

Section SDK.

(** The process environment, the standard library and the parts of the
    package that are declared outside the files at hand. *)

(** [os.Getenv("VKE_URL")]. *)
Variable VKE : string.
(** The classifier of the cross-region condition, on an error and the
    request's URL. *)
Variable IsPossiblyCanadianTenantSyncError : Error -> string -> bool.
(** [http.NewRequest] on a method and a target: the parsed URL printed back,
    or the error of an invalid method or target. *)
Variable http_NewRequest : string -> string -> Result string.
(** [http.Client.Do]: the exchange, given the client's timeout and the
    requests dispatched before this one. *)
Variable RoundTrip : Z -> list Request -> Request -> Result Response.
(** [encoding/json]'s quoted and escaped form of a string value. *)
Variable json_string : string -> string.
(** [json.Marshal] on the payload of a caller outside the package. *)
Variable json_Marshal_other : string -> Result string.
(** [json.Unmarshal] into the value a sink points to: the value it leaves
    there and the message of its error, if it has one. *)
Variable json_Unmarshal : string -> Value -> Value * option string.
(** [json.Unmarshal] into an [*APIError], in the same way. *)
Variable json_Unmarshal_APIError : string -> APIError -> APIError * option string.
(** [fmt.Sprintf(format)] without operands. *)
Variable fmt_Sprintf : string -> string.
(** The local clock: the instant returned by its [n]-th reading. *)
Variable local_clock : nat -> Z.

(** [time.Now()]. *)
Definition time_Now (w : World) : Z * World :=
  (local_clock (clock_reads w), tick w).

(** [Endpoints] maps endpoint names to their URI. *)
Definition Endpoints : gmap string string := {[ "vke" := VKE ]}.

(** [loadConfig] ([configuration.go]). *)
Definition loadConfig (endpointName : string) (c : Client) : Client * option Error :=
  let c :=
    if contains_slash endpointName
    then set_endpoint endpointName c
    else set_endpoint (default "" (Endpoints !! endpointName)) c in
  if String.eqb (endpoint c) "" then
    (c, Some (ErrConfig ("unknown endpoint '" +:+ endpointName +:+
                         "', consider checking 'Endpoints' list of using an URL")))
  else if String.eqb (AppKey c) "" then
    (c, Some (ErrConfig "missing application key, please check your configuration or consult the documentation to create one"))
  else if String.eqb (AppSecret c) "" then
    (c, Some (ErrConfig "missing application secret, please check your configuration or consult the documentation to create one"))
  else (c, None).

(** [NewClient]: a fresh client with its own http.Client and mutex. *)
Definition NewClient (endpointName appKey appSecret tenantid : string) : Result Client :=
  let client :=
    {| AppKey := appKey; AppSecret := appSecret; endpoint := "";
       ClientTimeout := 0; Logger := false;
       timeDeltaMutex := false; timeDeltaDone := false; timeDelta := 0;
       Timeout := DefaultTimeout; openStackToken := "" |} in
  match loadConfig endpointName client with
  | (_, Some err) => Err err
  | (client, None) => Ok client
  end.

(** [NewDefaultClientWithToken]. *)
Definition NewDefaultClientWithToken (authUrl token : string) : Result Client :=
  match NewClient VKE "none" "none" "none" with
  | Err err => Err err
  | Ok client => Ok (set_openStackToken token client)
  end.

Definition json_Marshal (p : Payload) : Result string :=
  match p with
  | UpdateOpts o => Ok (render json_string (Json_of_ptr Json_of_UpdateNodePoolOpts o))
  | CreateOpts o => Ok (render json_string (Json_of_ptr Json_of_CreateNodePoolOpts o))
  | OtherPayload raw => json_Marshal_other raw
  end.

(** The first lines of [NewRequest]: the body is nil for a nil [reqBody] and
    the marshalled payload otherwise. *)
Definition marshal_reqBody (reqBody : option Payload) : Result (option string) :=
  match reqBody with
  | None => Ok None
  | Some p =>
      match json_Marshal p with
      | Ok body => Ok (Some body)
      | Err err => Err err
      end
  end.

(** [UnmarshalResponse]: the sink's content afterwards and the error. *)
Definition UnmarshalResponse (response : Response) (result : option Value)
  : option Value * option Error :=
  match RespBody response with
  | Err err => (result, Some err)
  | Ok body =>
      if (StatusCode response <? 200) || (StatusCode response >=? 300) then
        let apiError := {| Code := StatusCode response; Message := ""; QueryID := "" |} in
        let '(apiError, err) := json_Unmarshal_APIError body apiError in
        let apiError :=
          match err with
          | Some _ => set_Message body apiError
          | None => apiError
          end in
        let apiError := set_QueryID (Header_Get "X-VKE-QueryID" (RespHeader response)) apiError in
        (result, Some (ErrAPI apiError))
      else
        match result with
        | None => (result, None)
        | Some v =>
            if (String.length body =? 0)%nat then (result, None)
            else let '(v', err) := json_Unmarshal body v in (Some v', ErrDecode <$> err)
        end
  end.

(** [Do]: log, dispatch, log. *)
Definition Do (c : Client) (w : World) (req : Request) : World * Result Response :=
  let w := if Logger c then add_log (LogRequest req) w else w in
  let r := RoundTrip (ClientTimeout c) (dispatched w) req in
  let w := add_dispatch req w in
  match r with
  | Err err => (w, Err err)
  | Ok resp => (if Logger c then add_log (LogResponse resp) w else w, Ok resp)
  end.

(** The result of [CallAPIWithContext]: the client and the world afterwards,
    the content of the sink, and the error. *)
Definition CallResult : Type := Client * World * option Value * option Error.

Section Body.

(** [CallAPIWithContext] one call deeper. *)
Variable call :
  Client -> World -> Context -> string -> string -> option Payload ->
  option Value -> url_Values -> list (string * string) -> bool ->
  Outcome CallResult.

(** [CallAPI]. *)
Definition CallAPI (c : Client) (w : World) (method path : string)
    (reqBody : option Payload) (result : option Value)
    (queryParams : url_Values) (needAuth : bool) : Outcome CallResult :=
  call c w Background method path reqBody result queryParams [] needAuth.

(** [GetUnAuth]. *)
Definition GetUnAuth (c : Client) (w : World) (url : string)
    (result : option Value) (queryParams : url_Values) : Outcome CallResult :=
  CallAPI c w "GET" url None result queryParams false.

(** [getTime]: the server's instant, or the error of the call. *)
Definition getTime (c : Client) (w : World)
  : Outcome (Client * World * Result Z) :=
  '(c, w, timestamp, err) ← GetUnAuth c w "/auth/time" (Some (VInt64 0)) [];
  match err with
  | Some err => Ret (c, w, Err err)
  | None =>
      let serverTime :=
        time_Unix match timestamp with Some (VInt64 t) => t | _ => 0 end in
      Ret (c, w, Ok serverTime)
  end.

(** [getTimeDelta]: the pair it returns is [(delta, nil)] or [(0, err)]. *)
Definition getTimeDelta (c : Client) (w : World)
  : Outcome (Client * World * (Z * option Error)) :=
  if negb (timeDeltaDone c) then
    (* c.timeDeltaMutex.Lock() *)
    if timeDeltaMutex c then Deadlock
    else
      let c := set_mutex true c in
      if negb (timeDeltaDone c) then
        '(c, w, r) ← getTime c w;
        match r with
        | Err err => Ret (set_mutex false c, w, (0, Some err))
        | Ok vkeTime =>
            let '(now, w) := time_Now w in
            let c := set_timeDelta (time_Sub now vkeTime) true c in
            Ret (set_mutex false c, w, (timeDelta c, None))
        end
      else Ret (set_mutex false c, w, (timeDelta c, None))
  else Ret (c, w, (timeDelta c, None)).

(** [TimeDelta]. *)
Definition TimeDelta := getTimeDelta.

(** The headers [NewRequest] injects: the content type of a body, the
    accepted type, the token, and then the caller's headers, which replace
    what is there under the same key.  [headers] is the caller's map as the
    range loop visits it, each value printed with [%v]. *)
Definition inject_headers (token : string) (body : option string)
    (headers : list (string * string)) : Header :=
  let h : Header := ∅ in
  let h :=
    match body with
    | Some _ => Header_Add "Content-Type" "application/json;charset=utf-8" h
    | None => h
    end in
  let h := Header_Add "Accept" "application/json" h in
  (* Bind OpenStack token to authorization bearer and custom headers *)
  let h :=
    if negb (String.eqb token "")
    then Header_Add "X-Auth-Token" (fmt_Sprintf token) h
    else h in
  fold_left (fun h kv => Header_Set (fst kv) (snd kv) h) headers h.

(** [NewRequest]; [queryParams] and [needAuth] are received and never read. *)
Definition NewRequest (c : Client) (w : World) (method path : string)
    (reqBody : option Payload) (queryParams : url_Values)
    (headers : list (string * string)) (needAuth : bool)
  : Outcome (Client * World * Result Request) :=
  match marshal_reqBody reqBody with
  | Err err => Ret (c, w, Err err)
  | Ok body =>
      let target := endpoint c +:+ path in
      match http_NewRequest method target with
      | Err err => Ret (c, w, Err err)
      | Ok url =>
          let req :=
            {| Method := method; URL := url;
               ReqHeader := inject_headers (openStackToken c) body headers;
               ReqBody := default "" body; ReqContext := Background |} in
          (* Inject signature *)
          if String.eqb (openStackToken c) "" then
            '(c, w, r) ← TimeDelta c w;
            match r with
            | (_, Some err) => Ret (c, w, Err err)
            | (timeDelta, None) =>
                let '(now, w) := time_Now w in
                let timestamp := time_ToUnix (time_Add now (neg_Duration timeDelta)) in
                let w :=
                  add_hash (signing_input (AppSecret c) method (endpoint c) path
                              (default "" body) timestamp) w in
                Ret (set_ClientTimeout (Timeout c) c, w, Ok req)
            end
          else Ret (set_ClientTimeout (Timeout c) c, w, Ok req)
      end
  end.

(** [CallAPIWithContext], with its recursive calls through [call]. *)
Definition CallAPIWithContext_body (c : Client) (w : World) (ctx : Context)
    (method path : string) (reqBody : option Payload) (result : option Value)
    (queryParams : url_Values) (headers : list (string * string))
    (needAuth : bool) : Outcome CallResult :=
  '(c, w, r) ← NewRequest c w method path reqBody queryParams headers needAuth;
  match r with
  | Err err => Ret (c, w, result, Some err)
  | Ok req =>
      let req := WithContext ctx req in
      let '(w, r) := Do c w req in
      match r with
      | Err err => Ret (c, w, result, Some err)
      | Ok response =>
          let '(result, err) := UnmarshalResponse response result in
          match err with
          | None => Ret (c, w, result, None)
          | Some err =>
              if IsPossiblyCanadianTenantSyncError err (URL req) then
                match NewClient VKE "none" "none" "" with
                | Err err2 =>
                    Ret (c, w, result,
                         Some (ErrWrap "failed to create canadian VKE API client for fallback: " err2))
                | Ok client =>
                    let client := set_openStackToken (openStackToken c) client in
                    '(_, w, result, err2) ←
                      call client w ctx method path reqBody result queryParams headers needAuth;
                    match err2 with
                    | None => Ret (c, w, result, None)
                    | Some _ => Ret (c, w, result, Some err)
                    end
                end
              else Ret (c, w, result, Some err)
          end
      end
  end.

End Body.

(** [CallAPIWithContext], unfolded to a call depth of [fuel]. *)
Fixpoint CallAPIWithContext (fuel : nat) (c : Client) (w : World) (ctx : Context)
    (method path : string) (reqBody : option Payload) (result : option Value)
    (queryParams : url_Values) (headers : list (string * string))
    (needAuth : bool) : Outcome CallResult :=
  match fuel with
  | O => OutOfFuel
  | S fuel =>
      CallAPIWithContext_body (CallAPIWithContext fuel)
        c w ctx method path reqBody result queryParams headers needAuth
  end.

(** ** The node-pool operations ([nodepool.go])

    Each returns the content of its sink together with the call's error; the
    sink is read after the call, as the gc compiler orders the operands of
    the [return].  The [klog] lines are left out. *)

Definition ListNodePools (fuel : nat) (c : Client) (w : World) (ctx : Context)
    (clusterID : string) : Outcome CallResult :=
  CallAPIWithContext fuel c w ctx "GET"
    ("/cluster/" +:+ clusterID +:+ "/nodegroups")
    None (Some (VNodePools [])) [] [] true.

Definition GetNodePool (fuel : nat) (c : Client) (w : World) (ctx : Context)
    (clusterID poolID : string) : Outcome CallResult :=
  CallAPIWithContext fuel c w ctx "GET"
    ("/cluster/" +:+ clusterID +:+ "/nodepool/" +:+ poolID)
    None (Some (VNodePoolPtr (Some zero_NodePool))) [] [] true.

Definition ListNodePoolNodes (fuel : nat) (c : Client) (w : World) (ctx : Context)
    (clusterID poolID : string) : Outcome CallResult :=
  CallAPIWithContext fuel c w ctx "GET"
    ("/cluster/" +:+ clusterID +:+ "/nodegroups/" +:+ poolID +:+ "/nodes")
    None (Some (VNodes [])) [] [] true.

Definition CreateNodePool (fuel : nat) (c : Client) (w : World) (ctx : Context)
    (projectID clusterID : string) (opts : option CreateNodePoolOpts)
  : Outcome CallResult :=
  CallAPIWithContext fuel c w ctx "POST"
    ("/cloud/project/" +:+ projectID +:+ "/kube/" +:+ clusterID +:+ "/nodepool")
    (Some (CreateOpts opts)) (Some (VNodePoolPtr (Some zero_NodePool))) [] [] true.

Definition UpdateNodePool (fuel : nat) (c : Client) (w : World) (ctx : Context)
    (clusterID poolID : string) (opts : option UpdateNodePoolOpts)
  : Outcome CallResult :=
  CallAPIWithContext fuel c w ctx "PUT"
    ("/cluster/" +:+ clusterID +:+ "/nodegroups/" +:+ poolID)
    (Some (UpdateOpts opts)) (Some (VNodePoolPtr (Some zero_NodePool))) [] [] true.

Definition DeleteNodePool (fuel : nat) (c : Client) (w : World) (ctx : Context)
    (projectID clusterID poolID : string) : Outcome CallResult :=
  CallAPIWithContext fuel c w ctx "DELETE"
    ("/cloud/project/" +:+ projectID +:+ "/kube/" +:+ clusterID +:+ "/nodepool/" +:+ poolID)
    None (Some (VNodePoolPtr (Some zero_NodePool))) [] [] true.

(** [DeleteNode]: the call's two results are dropped, [nil] is returned. *)
Definition DeleteNode (fuel : nat) (c : Client) (w : World) (ctx : Context)
    (clusterID NodeGroupID NodeName : string)
  : Outcome (Client * World * option Error) :=
  '(c, w, _, _) ←
    CallAPIWithContext fuel c w ctx "DELETE"
      ("/cluster/" +:+ clusterID +:+ "/nodegroups/" +:+ NodeGroupID +:+ "/nodes/" +:+ NodeName)
      None None [] [] true;
  Ret (c, w, None).

Definition AddNode (fuel : nat) (c : Client) (w : World) (ctx : Context)
    (clusterID NodeGroupID : string) : Outcome CallResult :=
  CallAPIWithContext fuel c w ctx "PUT"
    ("/cluster/" +:+ clusterID +:+ "/nodegroups/" +:+ NodeGroupID +:+ "/nodes/add")
    None (Some (VNode zero_Node)) [] [] true.

End SDK.

(** The requests a call dispatched, when it returned. *)
Definition dispatches_of (o : Outcome CallResult) : option (list Request) :=
  match o with
  | Ret (_, w, _, _) => Some (dispatched w)
  | _ => None
  end.

(** The error a call returned, when it returned. *)
Definition error_of (o : Outcome CallResult) : option (option Error) :=
  match o with
  | Ret (_, _, _, e) => Some e
  | _ => None
  end.

(** ** A concrete environment

    One instance of the environment, used to run the client on concrete
    inputs: every target is a valid URL, the decoders read decimal numbers
    and error bodies of the provider's shape, and the provider's answers are
    scripted per scenario. *)

Module Demo.

Definition VKE : string := "https://ca.vke.example".

(** A 403 answer to a request addressed to the european endpoint. *)
Definition crossRegion (e : Error) (url : string) : bool :=
  match e with
  | ErrAPI a => (Code a =? 403) && String.prefix "https://eu." url
  | _ => false
  end.

(** A 403 answer, whatever the endpoint. *)
Definition anyRegion (e : Error) (url : string) : bool :=
  match e with
  | ErrAPI a => Code a =? 403
  | _ => false
  end.

Definition http_NewRequest (method target : string) : Result string := Ok target.

Definition json_string (s : string) : string := dq +:+ s +:+ dq.

Definition json_Marshal_other (raw : string) : Result string := Ok raw.

Fixpoint digits_value (acc : Z) (s : string) : option Z :=
  match s with
  | EmptyString => Some acc
  | String c rest =>
      if is_digit c
      then digits_value (10 * acc + Z.of_nat (nat_of_ascii c - 48)) rest
      else None
  end.

Definition parse_int (s : string) : option Z :=
  match s with
  | EmptyString => None
  | _ => digits_value 0 s
  end.

Fixpoint strip_prefix (p s : string) : option string :=
  match p, s with
  | EmptyString, _ => Some s
  | String a p', String b s' => if Ascii.eqb a b then strip_prefix p' s' else None
  | _, _ => None
  end.

(** The longest prefix of characters satisfying [f], and the rest. *)
Fixpoint span (f : ascii -> bool) (s : string) : string * string :=
  match s with
  | EmptyString => (EmptyString, EmptyString)
  | String c rest =>
      if f c then let '(a, b) := span f rest in (String c a, b)
      else (EmptyString, s)
  end.

(** Decodes a decimal number into an [int64] sink; documents for the other
    sinks are not needed below and are refused. *)
Definition json_Unmarshal (body : string) (v : Value) : Value * option string :=
  match v with
  | VInt64 _ =>
      match parse_int body with
      | Some n => (VInt64 n, None)
      | None => (v, Some "json: cannot unmarshal into Go value of type int64")
      end
  | _ => (v, Some "json: document not supported")
  end.

(** Decodes bodies of the shape [{"code":<digits>,"message":"<text>"}] into
    the error's fields, as [json.Unmarshal] does, and rejects every other
    body. *)
Definition json_Unmarshal_APIError (body : string) (a : APIError)
  : APIError * option string :=
  let bad := (a, Some "invalid character") in
  match strip_prefix ("{" +:+ dq +:+ "code" +:+ dq +:+ ":") body with
  | None => bad
  | Some r1 =>
      let '(ds, r2) := span is_digit r1 in
      match parse_int ds,
            strip_prefix ("," +:+ dq +:+ "message" +:+ dq +:+ ":" +:+ dq) r2 with
      | Some n, Some r3 =>
          let '(msg, r4) := span (fun c => negb (Ascii.eqb c (ascii_of_nat 34))) r3 in
          if String.eqb r4 (dq +:+ "}")
          then ({| Code := n; Message := msg; QueryID := QueryID a |}, None)
          else bad
      | _, _ => bad
      end
  end.

Definition fmt_Sprintf (format : string) : string := format.

Definition local_clock (n : nat) : Z := (1700000100 + Z.of_nat n) * Second.

Definition error_body (code : Z) (msg : string) : string :=
  "{" +:+ dq +:+ "code" +:+ dq +:+ ":" +:+ pretty code +:+ "," +:+
  dq +:+ "message" +:+ dq +:+ ":" +:+ dq +:+ msg +:+ dq +:+ "}".

Definition answer (status : Z) (body : string) : Result Response :=
  Ok {| StatusCode := status;
        RespHeader := {[ "X-Vke-Queryid" := ["q-1"] ]};
        RespBody := Ok body |}.

Definition forbidden : Result Response :=
  answer 403 (error_body 403 "This service does not exist").

(** The provider at work: the time for [/auth/time], and an empty body with
    status 200 for everything else. *)
Definition served (r : Request) : Result Response :=
  match index 0 "/auth/time" (URL r) with
  | Some _ => answer 200 "1700000000"
  | None => answer 200 ""
  end.

(** The european endpoint refuses, the fallback endpoint answers. *)
Definition fallback_answers (t : Z) (before : list Request) (r : Request)
  : Result Response :=
  if String.prefix "https://eu." (URL r) then forbidden else served r.

(** The european endpoint refuses, the fallback endpoint fails. *)
Definition fallback_fails (t : Z) (before : list Request) (r : Request)
  : Result Response :=
  if String.prefix "https://eu." (URL r) then forbidden
  else answer 500 "boom".

(** The first two exchanges are refused, the third is answered. *)
Definition refused_twice (t : Z) (before : list Request) (r : Request)
  : Result Response :=
  match before with
  | [] | [_] => forbidden
  | _ => served r
  end.

(** The first exchange fails in transit, the later ones are answered. *)
Definition flaky (t : Z) (before : list Request) (r : Request)
  : Result Response :=
  match before with
  | [] => Err (ErrTransport "connection refused")
  | _ => served r
  end.

(** A client as [NewClient] makes it, before [loadConfig]. *)
Definition client (ep token : string) : Client :=
  {| AppKey := "none"; AppSecret := "none"; endpoint := ep;
     ClientTimeout := 0; Logger := false;
     timeDeltaMutex := false; timeDeltaDone := false; timeDelta := 0;
     Timeout := DefaultTimeout; openStackToken := token |}.

Definition eu_bearer : Client := client "https://eu.vke.example" "gAAAAABl".
Definition ca_bearer : Client := client VKE "gAAAAABl".
Definition eu_signed : Client := client "https://eu.vke.example" "".

(** [CallAPIWithContext] in this environment, for a value of [VKE_URL], a
    classifier and a script of answers. *)
Definition call_in (vke : string) (cls : Error -> string -> bool)
    (rt : Z -> list Request -> Request -> Result Response) :=
  CallAPIWithContext vke cls http_NewRequest rt json_string json_Marshal_other
    json_Unmarshal json_Unmarshal_APIError fmt_Sprintf local_clock.

Definition call := call_in VKE.

Definition unmarshal : Response -> option Value -> option Value * option Error :=
  UnmarshalResponse json_Unmarshal json_Unmarshal_APIError.

(** The request for the provider's time a bearer client builds. *)
Definition time_request (ep : string) : Request :=
  {| Method := "GET"; URL := ep +:+ "/auth/time";
     ReqHeader := {[ "Accept" := ["application/json"];
                     "X-Auth-Token" := ["gAAAAABl"] ]};
     ReqBody := ""; ReqContext := Background |}.

(** The world after one request for the time went to [VKE]. *)
Definition one_fetch : World := add_dispatch (time_request VKE) empty_World.

End Demo.

(** ** Concurrent callers of [getTimeDelta]

    Several goroutines run [getTimeDelta] on one client.  A goroutine is at
    one of the points below; a step moves one goroutine to its next point and
    performs the reads and writes of the shared fields that lie between the
    two.  The time fetch [getTime] is one step whose result the environment
    chooses. *)

Module Racers.

Inductive pc :=
| Entry                              (* before the first test of c.timeDeltaDone *)
| WantLock                           (* inside c.timeDeltaMutex.Lock() *)
| Holding                            (* holds the mutex, before the second test *)
| GotTime (t : Z)                    (* getTime returned the instant t *)
| WroteDelta                         (* c.timeDelta is written, c.timeDeltaDone not yet *)
| Reading (locked : bool)            (* at `return c.timeDelta, nil` *)
| Leaving (r : Z * option Error)     (* results set, the deferred Unlock pending *)
| Returned (r : Z * option Error).

Record state := {
  s_done : bool;                     (* c.timeDeltaDone *)
  s_delta : Z;                       (* c.timeDelta *)
  s_mutex : bool;                    (* c.timeDeltaMutex is held *)
  s_fetches : list (nat * Result Z); (* the fetches made, newest first: who, result *)
  s_pcs : list pc                    (* the goroutines *)
}.

(** What the scheduler and the environment choose for one step. *)
Record choice := {
  who : nat;                         (* the goroutine that moves *)
  fetch : Result Z;                  (* what getTime returns, if it is called *)
  now : Z                            (* what the clock shows, if it is read *)
}.

Definition init (n : nat) : state :=
  {| s_done := false; s_delta := 0; s_mutex := false; s_fetches := [];
     s_pcs := replicate n Entry |}.

Definition move (i : nat) (p : pc) (s : state) : state :=
  {| s_done := s_done s; s_delta := s_delta s; s_mutex := s_mutex s;
     s_fetches := s_fetches s; s_pcs := <[i := p]> (s_pcs s) |}.

Definition put_mutex (b : bool) (s : state) : state :=
  {| s_done := s_done s; s_delta := s_delta s; s_mutex := b;
     s_fetches := s_fetches s; s_pcs := s_pcs s |}.

Definition put_delta (d : Z) (s : state) : state :=
  {| s_done := s_done s; s_delta := d; s_mutex := s_mutex s;
     s_fetches := s_fetches s; s_pcs := s_pcs s |}.

Definition put_done (s : state) : state :=
  {| s_done := true; s_delta := s_delta s; s_mutex := s_mutex s;
     s_fetches := s_fetches s; s_pcs := s_pcs s |}.

Definition record_fetch (i : nat) (r : Result Z) (s : state) : state :=
  {| s_done := s_done s; s_delta := s_delta s; s_mutex := s_mutex s;
     s_fetches := (i, r) :: s_fetches s; s_pcs := s_pcs s |}.

(** One step of goroutine [who ch]; [None] when it cannot move: it is
    blocked in [Lock], it has returned, or there is no such goroutine. *)
Definition step (s : state) (ch : choice) : option state :=
  let i := who ch in
  match s_pcs s !! i with
  | None => None
  | Some Entry =>
      Some (move i (if s_done s then Reading false else WantLock) s)
  | Some WantLock =>
      if s_mutex s then None else Some (move i Holding (put_mutex true s))
  | Some Holding =>
      if s_done s then Some (move i (Reading true) s)
      else
        match fetch ch with
        | Ok t => Some (move i (GotTime t) (record_fetch i (Ok t) s))
        | Err e => Some (move i (Leaving (0, Some e)) (record_fetch i (Err e) s))
        end
  | Some (GotTime t) =>
      Some (move i WroteDelta (put_delta (time_Sub (now ch) t) s))
  | Some WroteDelta =>
      Some (move i (Reading true) (put_done s))
  | Some (Reading locked) =>
      let r := (s_delta s, None) in
      Some (move i (if locked then Leaving r else Returned r) s)
  | Some (Leaving r) =>
      Some (move i (Returned r) (put_mutex false s))
  | Some (Returned _) => None
  end.

Fixpoint run (s : state) (schedule : list choice) : option state :=
  match schedule with
  | [] => Some s
  | ch :: rest =>
      match step s ch with
      | None => None
      | Some s' => run s' rest
      end
  end.

(** The states [n] first-time callers can reach. *)
Definition reachable (n : nat) (s : state) : Prop :=
  exists schedule, run (init n) schedule = Some s.

Definition is_ok (f : nat * Result Z) : bool :=
  match snd f with Ok _ => true | Err _ => false end.

Definition successes (s : state) : nat :=
  length (List.filter is_ok (s_fetches s)).
Definition failures (s : state) : nat :=
  length (List.filter (fun f => negb (is_ok f)) (s_fetches s)).

(** The points at which a goroutine holds the mutex. *)
Definition holds (p : pc) : bool :=
  match p with
  | Holding | GotTime _ | WroteDelta | Reading true | Leaving _ => true
  | _ => false
  end.

(** The points between a successful fetch and the write of the flag. *)
Definition writing (p : pc) : bool :=
  match p with
  | GotTime _ | WroteDelta => true
  | _ => false
  end.

(** The goroutine is returning, or has returned, the offset [v]. *)
Definition has_value (p : pc) (v : Z) : Prop :=
  p = Leaving (v, None) \/ p = Returned (v, None).

(** The goroutine is returning, or has returned, [v] and the error [e]. *)
Definition has_error (p : pc) (v : Z) (e : Error) : Prop :=
  p = Leaving (v, Some e) \/ p = Returned (v, Some e).

(** What holds in every reachable state. *)
Record inv (s : state) : Prop := {
  inv_mutex : forall i p,
    s_pcs s !! i = Some p -> holds p = true -> s_mutex s = true;
  inv_excl : forall i j p q,
    s_pcs s !! i = Some p -> s_pcs s !! j = Some q ->
    holds p = true -> holds q = true -> i = j;
  inv_writing : forall i p,
    s_pcs s !! i = Some p -> writing p = true ->
    s_done s = false /\ successes s = 1%nat;
  inv_succ :
    successes s = 0%nat \/
    (successes s = 1%nat /\
     (s_done s = true \/ exists i p, s_pcs s !! i = Some p /\ writing p = true));
  inv_done : s_done s = true -> successes s = 1%nat;
  inv_reading : forall i l, s_pcs s !! i = Some (Reading l) -> s_done s = true;
  inv_value : forall i p v,
    s_pcs s !! i = Some p -> has_value p v -> s_done s = true /\ v = s_delta s;
  inv_error : forall i p v e,
    s_pcs s !! i = Some p -> has_error p v e ->
    v = 0 /\ In (i, Err e) (s_fetches s)
}.

(** A schedule from triples: who moves, what a fetch would return, what the
    clock would show. *)
Definition schedule_of (l : list (nat * Result Z * Z)) : list choice :=
  map (fun x => {| who := fst (fst x); fetch := snd (fst x); now := snd x |}) l.

(** The fetch result of a step that makes no fetch. *)
Definition unused : Result Z := Err (ErrTransport "").

(** Two callers; the fetch of the first succeeds while the second waits. *)
Definition first_succeeds : list choice :=
  schedule_of
    [(0%nat, unused, 0); (1%nat, unused, 0); (0%nat, unused, 0); (0%nat, Ok 1000, 0);
     (0%nat, unused, 1500); (0%nat, unused, 0); (0%nat, unused, 0); (0%nat, unused, 0);
     (1%nat, unused, 0); (1%nat, unused, 0); (1%nat, unused, 0); (1%nat, unused, 0)].

(** Two callers; the fetch of the first fails while the second waits. *)
Definition first_fails : list choice :=
  schedule_of
    [(0%nat, unused, 0); (1%nat, unused, 0); (0%nat, unused, 0);
     (0%nat, Err (ErrTransport "timeout"), 0)].

(** The rest of that run: the first caller returns, the second fetches. *)
Definition second_retries : list choice :=
  schedule_of
    [(0%nat, unused, 0); (1%nat, unused, 0); (1%nat, Ok 1000, 0); (1%nat, unused, 1500);
     (1%nat, unused, 0); (1%nat, unused, 0); (1%nat, unused, 0)].

(** Where [first_succeeds] ends. *)
Definition both_cached : state :=
  {| s_done := true; s_delta := 500; s_mutex := false;
     s_fetches := [(0%nat, Ok 1000)];
     s_pcs := [Returned (500, None); Returned (500, None)] |}.

End Racers.

(** ** The constructors, helpers and request wrappers of [vke.go] *)

Section Wrappers.

Variable VKE : string.
Variable IsPossiblyCanadianTenantSyncError : Error -> string -> bool.
Variable http_NewRequest : string -> string -> Result string.
Variable RoundTrip : Z -> list Request -> Request -> Result Response.
Variable json_string : string -> string.
Variable json_Marshal_other : string -> Result string.
Variable json_Unmarshal : string -> Value -> Value * option string.
Variable json_Unmarshal_APIError : string -> APIError -> APIError * option string.
Variable fmt_Sprintf : string -> string.
Variable local_clock : nat -> Z.

Local Abbreviation callW :=
  (CallAPIWithContext VKE IsPossiblyCanadianTenantSyncError http_NewRequest
     RoundTrip json_string json_Marshal_other json_Unmarshal
     json_Unmarshal_APIError fmt_Sprintf local_clock).

(** [NewEndpointClient]. *)
Definition NewEndpointClient (endpointName : string) : Result Client :=
  NewClient VKE endpointName "" "" "".

(** [NewDefaultClient]. *)
Definition NewDefaultClient : Result Client :=
  NewClient VKE "" "" "" "".

(** [Ping]: the error of [getTime]. *)
Definition Ping (fuel : nat) (c : Client) (w : World)
  : Outcome (Client * World * option Error) :=
  '(c, w, r) ← getTime (callW fuel) c w;
  Ret (c, w, match r with Ok _ => None | Err err => Some err end).

(** [Time]. *)
Definition Time (fuel : nat) (c : Client) (w : World)
  : Outcome (Client * World * Result Z) :=
  getTime (callW fuel) c w.

(** The wrappers of [CallAPI], one per method and per value of [needAuth]. *)
Definition Get (fuel : nat) (c : Client) (w : World) (url : string)
    (result : option Value) (queryParams : url_Values) : Outcome CallResult :=
  CallAPI (callW fuel) c w "GET" url None result queryParams true.

Definition Post (fuel : nat) (c : Client) (w : World) (url : string)
    (reqBody : option Payload) (result : option Value) (queryParams : url_Values)
  : Outcome CallResult :=
  CallAPI (callW fuel) c w "POST" url reqBody result queryParams true.

Definition PostUnAuth (fuel : nat) (c : Client) (w : World) (url : string)
    (reqBody : option Payload) (result : option Value) (queryParams : url_Values)
  : Outcome CallResult :=
  CallAPI (callW fuel) c w "POST" url reqBody result queryParams false.

Definition Put (fuel : nat) (c : Client) (w : World) (url : string)
    (reqBody : option Payload) (result : option Value) (queryParams : url_Values)
  : Outcome CallResult :=
  CallAPI (callW fuel) c w "PUT" url reqBody result queryParams true.

Definition PutUnAuth (fuel : nat) (c : Client) (w : World) (url : string)
    (reqBody : option Payload) (result : option Value) (queryParams : url_Values)
  : Outcome CallResult :=
  CallAPI (callW fuel) c w "PUT" url reqBody result queryParams false.

Definition Delete (fuel : nat) (c : Client) (w : World) (url : string)
    (result : option Value) (queryParams : url_Values) : Outcome CallResult :=
  CallAPI (callW fuel) c w "DELETE" url None result queryParams true.

Definition DeleteUnAuth (fuel : nat) (c : Client) (w : World) (url : string)
    (result : option Value) (queryParams : url_Values) : Outcome CallResult :=
  CallAPI (callW fuel) c w "DELETE" url None result queryParams false.

(** The wrappers of [CallAPIWithContext]: no headers of the caller. *)
Definition GetWithContext (fuel : nat) (c : Client) (w : World) (ctx : Context)
    (url : string) (result : option Value) (queryParams : url_Values)
  : Outcome CallResult :=
  callW fuel c w ctx "GET" url None result queryParams [] true.

Definition GetUnAuthWithContext (fuel : nat) (c : Client) (w : World) (ctx : Context)
    (url : string) (result : option Value) (queryParams : url_Values)
  : Outcome CallResult :=
  callW fuel c w ctx "GET" url None result queryParams [] false.

Definition PostWithContext (fuel : nat) (c : Client) (w : World) (ctx : Context)
    (url : string) (reqBody : option Payload) (result : option Value)
    (queryParams : url_Values) : Outcome CallResult :=
  callW fuel c w ctx "POST" url reqBody result queryParams [] true.

Definition PostUnAuthWithContext (fuel : nat) (c : Client) (w : World) (ctx : Context)
    (url : string) (reqBody : option Payload) (result : option Value)
    (queryParams : url_Values) : Outcome CallResult :=
  callW fuel c w ctx "POST" url reqBody result queryParams [] false.

Definition PutWithContext (fuel : nat) (c : Client) (w : World) (ctx : Context)
    (url : string) (reqBody : option Payload) (result : option Value)
    (queryParams : url_Values) : Outcome CallResult :=
  callW fuel c w ctx "PUT" url reqBody result queryParams [] true.

Definition PutUnAuthWithContext (fuel : nat) (c : Client) (w : World) (ctx : Context)
    (url : string) (reqBody : option Payload) (result : option Value)
    (queryParams : url_Values) : Outcome CallResult :=
  callW fuel c w ctx "PUT" url reqBody result queryParams [] false.

Definition DeleteWithContext (fuel : nat) (c : Client) (w : World) (ctx : Context)
    (url : string) (result : option Value) (queryParams : url_Values)
  : Outcome CallResult :=
  callW fuel c w ctx "DELETE" url None result queryParams [] true.

Definition DeleteUnAuthWithContext (fuel : nat) (c : Client) (w : World) (ctx : Context)
    (url : string) (result : option Value) (queryParams : url_Values)
  : Outcome CallResult :=
  callW fuel c w ctx "DELETE" url None result queryParams [] false.

End Wrappers.

(** [DrainNode] ([node.go]): the message of the error it returns, [None] for
    [nil].  [client] and [node] are nil-able; nothing else of them is read. *)
Definition DrainNode {K N : Type} (nodeName : string) (client : option K)
    (node : option N) (DrainWaitSeconds : Z) : option string :=
  match client with
  | None => Some "K8sClient not set"
  | Some _ =>
      match node with
      | None => Some "node not set"
      | Some _ =>
          if String.eqb nodeName "" then Some "node name not set" else None
      end
  end.

(** ** What the caller's headers and the logger change *)

(** The value the caller's headers leave under the canonical key [k]: that of
    the last entry visited whose name has [k] as its canonical form. *)
Fixpoint caller_value (k : string) (headers : list (string * string)) : option string :=
  match headers with
  | [] => None
  | (name, value) :: rest =>
      match caller_value k rest with
      | Some v => Some v
      | None => if String.eqb (CanonicalMIMEHeaderKey name) k then Some value else None
      end
  end.

Definition set_Logger (b : bool) (c : Client) : Client :=
  {| AppKey := AppKey c; AppSecret := AppSecret c; endpoint := endpoint c;
     ClientTimeout := ClientTimeout c; Logger := b;
     timeDeltaMutex := timeDeltaMutex c; timeDeltaDone := timeDeltaDone c;
     timeDelta := timeDelta c; Timeout := Timeout c;
     openStackToken := openStackToken c |}.

Definition set_logged (l : list LogEntry) (w : World) : World :=
  {| dispatched := dispatched w; logged := l;
     hashed := hashed w; clock_reads := clock_reads w |}.

(** A result with the logger and its record left out. *)
Definition unlogged {A} (r : Client * World * A) : Client * World * A :=
  let '(c, w, a) := r in (set_Logger false c, set_logged [] w, a).

Definition unlogged_call (r : CallResult) : CallResult :=
  let '(c, w, v, e) := r in (set_Logger false c, set_logged [] w, v, e).

Definition Outcome_map {A B} (f : A -> B) (o : Outcome A) : Outcome B :=
  match o with
  | Ret a => Ret (f a)
  | Deadlock => Deadlock
  | OutOfFuel => OutOfFuel
  end.

(** ** The version URLs of the container-infra API ([apiversions/urls.go]) *)

Module apiversions.

(** [strings.TrimRight(s, "/")]: [s] without its trailing slashes. *)
Fixpoint TrimRight_slash (s : string) : string :=
  match s with
  | EmptyString => EmptyString
  | String c rest =>
      match TrimRight_slash rest with
      | EmptyString => if Ascii.eqb c "/"%char then EmptyString else String c EmptyString
      | rest' => String c rest'
      end
  end.

(** [strings.HasSuffix(s, "/")]. *)
Fixpoint ends_with_slash (s : string) : bool :=
  match s with
  | EmptyString => false
  | String c EmptyString => Ascii.eqb c "/"%char
  | String _ rest => ends_with_slash rest
  end.

Section URLs.

(** [utils.BaseEndpoint], declared outside the files at hand: its first
    result; the error is dropped by both callers. *)
Variable BaseEndpoint : string -> string.

(** [getURL], on the [Endpoint] field of the service client. *)
Definition getURL (Endpoint version : string) : string :=
  let baseEndpoint := BaseEndpoint Endpoint in
  ((TrimRight_slash baseEndpoint +:+ "/") +:+ TrimRight_slash version) +:+ "/".

(** [listURL]. *)
Definition listURL (Endpoint : string) : string :=
  let baseEndpoint := BaseEndpoint Endpoint in
  TrimRight_slash baseEndpoint +:+ "/".

End URLs.

End apiversions.

(** ** How far the concurrent callers of [getTimeDelta] have come *)

(** The points of a goroutine in the order it passes them. *)
Definition rank (p : Racers.pc) : nat :=
  match p with
  | Racers.Entry => 0
  | Racers.WantLock => 1
  | Racers.Holding => 2
  | Racers.GotTime _ => 3
  | Racers.WroteDelta => 4
  | Racers.Reading _ => 5
  | Racers.Leaving _ => 6
  | Racers.Returned _ => 7
  end.

(** The steps the goroutines have taken at least, all together. *)
Definition total_rank (s : Racers.state) : nat := sum_list (rank <$> Racers.s_pcs s).

Definition is_returned (p : Racers.pc) : bool :=
  match p with
  | Racers.Returned _ => true
  | _ => false
  end.

(** When the mutex is held, a goroutine holds it. *)
Definition held (s : Racers.state) : Prop :=
  Racers.s_mutex s = true ->
  exists i p, Racers.s_pcs s !! i = Some p /\ Racers.holds p = true.

(** ** More scenarios for the concrete environment *)

(** A provider that answers every request with status 200 and no body. *)
Definition silent (t : Z) (before : list Request) (r : Request) : Result Response :=
  Demo.answer 200 "".

(** A provider that cannot be reached. *)
Definition unreachable (t : Z) (before : list Request) (r : Request) : Result Response :=
  Err (ErrTransport "connection refused").

(** A european bearer client whose [Timeout] the caller has set to 30 s. *)
Definition eu_hurried : Client :=
  {| AppKey := "none"; AppSecret := "none"; endpoint := "https://eu.vke.example";
     ClientTimeout := 0; Logger := false;
     timeDeltaMutex := false; timeDeltaDone := false; timeDelta := 0;
     Timeout := 30 * Second; openStackToken := "gAAAAABl" |}.

(** A transport that is [Demo.fallback_answers] for a first exchange under
    30 s and for a later exchange under the default timeout, and fails for
    every other exchange: a first exchange under another timeout, and a later
    one under 30 s among them. *)
Definition timed_answers (t : Z) (before : list Request) (r : Request)
  : Result Response :=
  match before with
  | [] =>
      if t =? 30 * Second then Demo.fallback_answers t before r
      else Err (ErrTransport "first exchange under another timeout")
  | _ =>
      if t =? DefaultTimeout then Demo.fallback_answers t before r
      else Err (ErrTransport "later exchange under another timeout")
  end.

(** A world in which the local clock was read five times. *)
Definition five_reads : World :=
  {| dispatched := []; logged := []; hashed := []; clock_reads := 5 |}.

(** A signed-mode client whose offset was taken when the local clock showed
    1700000100 s and the server 1700000000 s. *)
Definition eu_synced : Client :=
  set_timeDelta (time_Sub (1700000100 * Second) (time_Unix 1700000000)) true
    Demo.eu_signed.

(** The two callers where [Racers.first_fails] ends: the first is about to
    release the mutex, the second waits for it. *)
Definition one_waits : Racers.state :=
  {| Racers.s_done := false; Racers.s_delta := 0; Racers.s_mutex := true;
     Racers.s_fetches := [(0%nat, Err (ErrTransport "timeout"))];
     Racers.s_pcs := [Racers.Leaving (0, Some (ErrTransport "timeout")); Racers.WantLock] |}.

(** * Properties *)

#[local] Arguments NewClient : simpl never.
#[local] Arguments UnmarshalResponse : simpl never.
#[local] Arguments Do : simpl never.

(** ** Outcomes *)

Lemma bind_Ret_inv {A B} (m : Outcome A) (k : A -> Outcome B) (b : B) :
  m ≫= k = Ret b -> exists a, m = Ret a /\ k a = Ret b.
Proof.
  destruct m as [a| |]; simpl; intros H; try discriminate.
  exists a. split; [reflexivity | exact H].
Qed.

Lemma approx_refl {A} (o : Outcome A) : approx o o.
Proof. right. reflexivity. Qed.

Lemma approx_bind {A B} (m1 m2 : Outcome A) (k1 k2 : A -> Outcome B) :
  approx m1 m2 -> (forall a, approx (k1 a) (k2 a)) -> approx (m1 ≫= k1) (m2 ≫= k2).
Proof.
  intros [-> | ->] Hk.
  - left. reflexivity.
  - destruct m2 as [a| |]; simpl; [apply Hk | right; reflexivity | left; reflexivity].
Qed.

(** ** The client record *)

Lemma set_mutex_idem (b : bool) (c : Client) :
  timeDeltaMutex c = b -> set_mutex b c = c.
Proof. destruct c; simpl; intros ->; reflexivity. Qed.

Lemma set_mutex_set_mutex (a b : bool) (c : Client) :
  set_mutex a (set_mutex b c) = set_mutex a c.
Proof. reflexivity. Qed.

Lemma unlock_lock (c : Client) :
  timeDeltaMutex c = false -> set_mutex false (set_mutex true c) = c.
Proof. intros H. rewrite set_mutex_set_mutex. apply set_mutex_idem, H. Qed.

Section Facts.

Variable VKE : string.
Variable IsPossiblyCanadianTenantSyncError : Error -> string -> bool.
Variable http_NewRequest : string -> string -> Result string.
Variable RoundTrip : Z -> list Request -> Request -> Result Response.
Variable json_string : string -> string.
Variable json_Marshal_other : string -> Result string.
Variable json_Unmarshal : string -> Value -> Value * option string.
Variable json_Unmarshal_APIError : string -> APIError -> APIError * option string.
Variable fmt_Sprintf : string -> string.
Variable local_clock : nat -> Z.

Local Abbreviation callN :=
  (CallAPIWithContext VKE IsPossiblyCanadianTenantSyncError http_NewRequest
     RoundTrip json_string json_Marshal_other json_Unmarshal
     json_Unmarshal_APIError fmt_Sprintf local_clock).
Local Abbreviation bodyN :=
  (CallAPIWithContext_body VKE IsPossiblyCanadianTenantSyncError http_NewRequest
     RoundTrip json_string json_Marshal_other json_Unmarshal
     json_Unmarshal_APIError fmt_Sprintf local_clock).
Local Abbreviation NewRequestN :=
  (NewRequest http_NewRequest json_string json_Marshal_other fmt_Sprintf local_clock).
Local Abbreviation getTimeDeltaN := (getTimeDelta local_clock).
Local Abbreviation marshalN := (marshal_reqBody json_string json_Marshal_other).
Local Abbreviation DoN := (Do RoundTrip).
Local Abbreviation UnmarshalN := (UnmarshalResponse json_Unmarshal json_Unmarshal_APIError).
Local Abbreviation NewClientN := (NewClient VKE).

(** A signed-mode client whose offset is not cached and whose mutex is held
    gets no further than building the request: the call returns only with
    the error of [json.Marshal] or [http.NewRequest], and changes nothing. *)
Lemma locked_call fuel c w ctx method path reqBody result q headers needAuth r :
  openStackToken c = "" -> timeDeltaDone c = false -> timeDeltaMutex c = true ->
  callN fuel c w ctx method path reqBody result q headers needAuth = Ret r ->
  exists err, r = (c, w, result, Some err).
Proof.
  intros Htok Hdone Hmut.
  destruct fuel as [|fuel]; simpl; [discriminate|].
  unfold CallAPIWithContext_body, NewRequest.
  destruct (marshalN reqBody) as [body|err];
    [|simpl; intros [= <-]; eauto].
  destruct (http_NewRequest method _) as [url|err];
    [|simpl; intros [= <-]; eauto].
  rewrite Htok. simpl.
  unfold TimeDelta, getTimeDelta. rewrite Hdone, Hmut. simpl. discriminate.
Qed.

Lemma getTime_locked fuel c w r :
  openStackToken c = "" -> timeDeltaDone c = false -> timeDeltaMutex c = true ->
  getTime (callN fuel) c w = Ret r ->
  exists err, r = (c, w, Err err).
Proof.
  intros Htok Hdone Hmut H. unfold getTime, GetUnAuth, CallAPI in H.
  apply bind_Ret_inv in H as [[[[c1 w1] v] e] [H1 H2]].
  apply locked_call in H1 as [err [= -> -> -> ->]]; try assumption.
  simpl in H2. injection H2 as <-. eauto.
Qed.

(** In signed mode [getTimeDelta] never completes a fetch: it returns the
    cached offset, or the error met while building the time request. *)
Lemma getTimeDelta_signed fuel c w r :
  openStackToken c = "" ->
  getTimeDeltaN (callN fuel) c w = Ret r ->
  (timeDeltaDone c = true /\ r = (c, w, (timeDelta c, None))) \/
  (timeDeltaDone c = false /\ timeDeltaMutex c = false /\
   exists err, r = (c, w, (0, Some err))).
Proof.
  intros Htok. unfold getTimeDelta.
  destruct (timeDeltaDone c) eqn:Hdone; simpl.
  { intros [= <-]. left. split; reflexivity. }
  destruct (timeDeltaMutex c) eqn:Hmut; [discriminate|].
  simpl. rewrite ?Hdone. simpl. intros H.
  apply bind_Ret_inv in H as [[[c1 w1] r1] [H1 H2]].
  apply getTime_locked in H1 as [err [= -> -> ->]]; try assumption; try reflexivity.
  simpl in H2. injection H2 as <-.
  right. split; [reflexivity|]. split; [reflexivity|].
  exists err. rewrite unlock_lock by assumption. reflexivity.
Qed.

(** [NewRequest] leaves the client as it is up to the timeout of its
    http.Client, and dispatches and logs nothing. *)
Lemma NewRequest_frame fuel c w method path reqBody q headers needAuth c' w' r :
  NewRequestN (callN fuel) c w method path reqBody q headers needAuth = Ret (c', w', r) ->
  same_client c c' /\ dispatched w' = dispatched w /\ logged w' = logged w.
Proof.
  assert (Hsame : forall c0 : Client, same_client c0 c0) by (intros []; reflexivity).
  assert (Hset : forall t (c0 : Client), same_client c0 (set_ClientTimeout t c0))
    by (intros t []; reflexivity).
  unfold NewRequest.
  destruct (marshalN reqBody) as [body|err];
    [|intros [= <- <- <-]; auto].
  destruct (http_NewRequest method _) as [url|err];
    [|intros [= <- <- <-]; auto].
  destruct (String.eqb (openStackToken c) "") eqn:Htok; simpl;
    [|intros [= <- <- <-]; auto].
  apply String.eqb_eq in Htok. intros H.
  apply bind_Ret_inv in H as [[[c1 w1] r1] [H1 H2]].
  apply getTimeDelta_signed in H1 as [[Hd [= -> -> ->]] | (Hd & Hm & err & [= -> -> ->])];
    try assumption; simpl in H2; injection H2 as <- <- <-; auto.
Qed.

Lemma Do_dispatched c w req w' r :
  DoN c w req = (w', r) -> dispatched w' = dispatched w ++ [req].
Proof.
  unfold Do. destruct (Logger c); simpl;
    destruct (RoundTrip _ _ req); intros [= <- <-]; reflexivity.
Qed.

(** [CallAPIWithContext] leaves the client as it is up to the timeout of its
    http.Client: it never writes the cached offset or its flag, and the
    mutex is released when it returns. *)
Lemma call_frame fuel c w ctx method path reqBody result q headers needAuth c' w' v e :
  callN fuel c w ctx method path reqBody result q headers needAuth = Ret (c', w', v, e) ->
  same_client c c'.
Proof.
  destruct fuel as [|fuel]; simpl; [discriminate|].
  unfold CallAPIWithContext_body. intros H.
  apply bind_Ret_inv in H as [[[c1 w1] r1] [H1 H2]].
  apply NewRequest_frame in H1 as (Hc & _ & _).
  destruct r1 as [req|err]; simpl in H2; [|by simplify_eq].
  destruct (DoN c1 w1 _) as [w2 [response|err]]; simpl in H2; [|by simplify_eq].
  destruct (UnmarshalN response result) as [v1 [err|]]; simpl in H2.
  2: by simplify_eq.
  destruct (IsPossiblyCanadianTenantSyncError err _); simpl in H2.
  2: by simplify_eq.
  destruct (NewClientN VKE "none" "none" "") as [client|err2]; simpl in H2.
  2: by simplify_eq.
  apply bind_Ret_inv in H2 as [[[[c3 w3] v3] e3] [_ H3]].
  destruct e3; by simplify_eq.
Qed.

Lemma same_client_fields c c' :
  same_client c c' ->
  timeDeltaDone c' = timeDeltaDone c /\ timeDelta c' = timeDelta c /\
  timeDeltaMutex c' = timeDeltaMutex c /\ openStackToken c' = openStackToken c /\
  endpoint c' = endpoint c.
Proof. intros ->. simpl. repeat split. Qed.

(** C1.  When the first attempt of [CallAPIWithContext] ends in an error the
    classifier takes for the cross-region condition, and the fallback client
    is built, the outcome is decided by the one fallback call: if it returns
    without error, the caller gets no error and the sink as the fallback
    left it; if it returns an error, the caller gets the error of the first
    attempt, not the fallback's. *)
Theorem fallback_result_or_original_error
    fuel c w ctx method path reqBody result q headers needAuth
    c1 w1 req w2 response result1 err client fb_c fb_w fb_result fb_err :
  NewRequestN (callN fuel) c w method path reqBody q headers needAuth
    = Ret (c1, w1, Ok req) ->
  DoN c1 w1 (WithContext ctx req) = (w2, Ok response) ->
  UnmarshalN response result = (result1, Some err) ->
  IsPossiblyCanadianTenantSyncError err (URL (WithContext ctx req)) = true ->
  NewClientN VKE "none" "none" "" = Ok client ->
  callN fuel (set_openStackToken (openStackToken c1) client) w2 ctx
    method path reqBody result1 q headers needAuth
    = Ret (fb_c, fb_w, fb_result, fb_err) ->
  callN (S fuel) c w ctx method path reqBody result q headers needAuth
    = Ret (c1, fb_w, fb_result,
           match fb_err with
           | None => None
           | Some _ => Some err
           end).
Proof.
  intros Hreq Hdo Hdec Hcls Hnew Hfb.
  simpl. unfold CallAPIWithContext_body.
  rewrite Hreq. simpl. rewrite Hdo. simpl. rewrite Hdec. simpl.
  simpl in Hcls. rewrite Hcls. rewrite Hnew. simpl. rewrite Hfb. simpl.
  destruct fb_err; reflexivity.
Qed.

Lemma NewRequest_URL call c w method path reqBody q headers needAuth c1 w1 req :
  NewRequestN call c w method path reqBody q headers needAuth = Ret (c1, w1, Ok req) ->
  http_NewRequest method (endpoint c +:+ path) = Ok (URL req).
Proof.
  unfold NewRequest.
  destruct (marshalN reqBody) as [body|err];
    [|intros; by simplify_eq].
  destruct (http_NewRequest method _) as [url|err]; [|intros; by simplify_eq].
  destruct (String.eqb (openStackToken c) ""); simpl; [|intros; by simplify_eq].
  intros H. apply bind_Ret_inv in H as [[[c2 w2] [d [e|]]] [_ H]];
    simpl in H; by simplify_eq.
Qed.

(** A call whose errors the classifier never takes for the cross-region
    condition dispatches at most one request. *)
Lemma no_failover_one_dispatch
    fuel c w ctx method path reqBody result q headers needAuth c' w' v e :
  (forall err url,
      http_NewRequest method (endpoint c +:+ path) = Ok url ->
      IsPossiblyCanadianTenantSyncError err url = false) ->
  callN fuel c w ctx method path reqBody result q headers needAuth = Ret (c', w', v, e) ->
  exists reqs, dispatched w' = dispatched w ++ reqs /\ (length reqs <= 1)%nat.
Proof.
  intros Hcls.
  destruct fuel as [|fuel]; simpl; [discriminate|].
  unfold CallAPIWithContext_body. intros H.
  apply bind_Ret_inv in H as [[[c1 w1] r1] [H1 H2]].
  pose proof H1 as Hframe. apply NewRequest_frame in Hframe as (_ & Hd & _).
  destruct r1 as [req|err]; simpl in H2.
  2:{ simplify_eq. exists []. rewrite app_nil_r. split; [done|simpl; lia]. }
  apply NewRequest_URL in H1.
  destruct (DoN c1 w1 _) as [w2 r2] eqn:Hdo. apply Do_dispatched in Hdo.
  assert (Hone : exists reqs, dispatched w2 = dispatched w ++ reqs /\ (length reqs <= 1)%nat).
  { exists [WithContext ctx req]. rewrite Hdo, Hd. split; [done|simpl; lia]. }
  destruct r2 as [response|err]; simpl in H2; [|by simplify_eq].
  destruct (UnmarshalN response result) as [v1 [err|]]; simpl in H2; [|by simplify_eq].
  rewrite (Hcls err _ H1) in H2. by simplify_eq.
Qed.

(** C2, as the code has it.  A call whose first attempt ends in an error the
    classifier takes for the cross-region condition issues one fallback call
    when the fallback client is built, and none when it is not: then it
    returns the error of [NewClient], wrapped.  The fallback call is
    [CallAPIWithContext] itself on the new client, so it fails over again when
    the classifier takes its own error for the cross-region condition.  When
    the classifier takes no error of a request addressed to the fallback
    endpoint for that condition, a caller's call dispatches at most two
    requests: its own and one fallback. *)
Theorem fallback_hops fuel c w ctx method path reqBody result q headers needAuth :
  (forall c1 w1 req w2 response result1 err,
      NewRequestN (callN fuel) c w method path reqBody q headers needAuth
        = Ret (c1, w1, Ok req) ->
      DoN c1 w1 (WithContext ctx req) = (w2, Ok response) ->
      UnmarshalN response result = (result1, Some err) ->
      IsPossiblyCanadianTenantSyncError err (URL req) = true ->
      callN (S fuel) c w ctx method path reqBody result q headers needAuth
      = match NewClientN VKE "none" "none" "" with
        | Ok client =>
            callN fuel (set_openStackToken (openStackToken c1) client) w2 ctx
              method path reqBody result1 q headers needAuth
            ≫= fun '(_, w3, result3, err2) =>
                 Ret (c1, w3, result3,
                      match err2 with
                      | None => None
                      | Some _ => Some err
                      end)
        | Err err2 =>
            Ret (c1, w2, result1,
                 Some (ErrWrap "failed to create canadian VKE API client for fallback: " err2))
        end)
  /\
  ((forall client err url,
       NewClientN VKE "none" "none" "" = Ok client ->
       http_NewRequest method (endpoint client +:+ path) = Ok url ->
       IsPossiblyCanadianTenantSyncError err url = false) ->
   forall c' w' v e,
     callN fuel c w ctx method path reqBody result q headers needAuth
       = Ret (c', w', v, e) ->
     exists reqs, dispatched w' = dispatched w ++ reqs /\ (length reqs <= 2)%nat).
Proof.
  split.
  { intros * Hreq Hdo Hdec Hcls.
    simpl. unfold CallAPIWithContext_body at 1.
    rewrite Hreq. simpl. rewrite Hdo. simpl. rewrite Hdec. simpl.
    rewrite Hcls.
    destruct (NewClientN VKE "none" "none" "") as [client|err2]; [|reflexivity].
    simpl.
    destruct (callN fuel _ w2 ctx method path reqBody result1 q headers needAuth)
      as [[[[c3 w3] v3] [e3|]]| |]; reflexivity. }
  intros Hcls c' w' v e.
  destruct fuel as [|fuel]; simpl; [discriminate|].
  unfold CallAPIWithContext_body. intros H.
  apply bind_Ret_inv in H as [[[c1 w1] r1] [H1 H2]].
  pose proof H1 as Hframe. apply NewRequest_frame in Hframe as (_ & Hd & _).
  destruct r1 as [req|err]; simpl in H2.
  2:{ simplify_eq. exists []. rewrite app_nil_r. split; [done|simpl; lia]. }
  destruct (DoN c1 w1 _) as [w2 r2] eqn:Hdo. apply Do_dispatched in Hdo.
  assert (Hone : exists reqs, dispatched w2 = dispatched w ++ reqs /\ (length reqs <= 2)%nat).
  { exists [WithContext ctx req]. rewrite Hdo, Hd. split; [done|simpl; lia]. }
  destruct r2 as [response|err]; simpl in H2; [|by simplify_eq].
  destruct (UnmarshalN response result) as [v1 [err|]]; simpl in H2; [|by simplify_eq].
  destruct (IsPossiblyCanadianTenantSyncError err _); simpl in H2; [|by simplify_eq].
  destruct (NewClientN VKE "none" "none" "") as [client|err2] eqn:Hnew;
    simpl in H2; [|by simplify_eq].
  apply bind_Ret_inv in H2 as [[[[c3 w3] v3] e3] [Hfb H3]].
  apply no_failover_one_dispatch in Hfb as (reqs & Hreqs & Hlen).
  2:{ intros err0 url Hurl. eapply Hcls; [reflexivity|].
      destruct client; exact Hurl. }
  exists (WithContext ctx req :: reqs).
  assert (w' = w3) as -> by (destruct e3; by simplify_eq).
  rewrite Hreqs, Hdo, Hd, <- app_assoc. split; [done|simpl; lia].
Qed.

Lemma getTime_frame fuel c w c1 w1 r :
  getTime (callN fuel) c w = Ret (c1, w1, r) -> same_client c c1.
Proof.
  unfold getTime, GetUnAuth, CallAPI. intros H.
  apply bind_Ret_inv in H as [[[[c2 w2] v2] e2] [H1 H2]].
  apply call_frame in H1. destruct e2; simpl in H2; by simplify_eq.
Qed.

(** C3.  For a client whose mutex is free:
    - once the offset is cached, [getTimeDelta] returns it and touches
      neither the client nor the world, whatever the call depth;
    - when the time fetch fails, [getTimeDelta] returns [(0, err)] with that
      error, the flag stays false, the stored offset is the one before, the
      mutex is free again, and the next call can return only after a fetch
      of its own;
    - when the time fetch succeeds, the offset [now - serverTime] is stored,
      the flag is set, and every later call returns that offset without
      touching the world;
    - no call of [CallAPIWithContext], hence no node-pool operation, changes
      the flag or the stored offset. *)
Theorem getTimeDelta_caches fuel c w :
  timeDeltaMutex c = false ->
  (timeDeltaDone c = true ->
   forall call, getTimeDeltaN call c w = Ret (c, w, (timeDelta c, None)))
  /\
  (timeDeltaDone c = false ->
   forall c1 w1 err,
     getTime (callN fuel) (set_mutex true c) w = Ret (c1, w1, Err err) ->
     exists c2,
       getTimeDeltaN (callN fuel) c w = Ret (c2, w1, (0, Some err)) /\
       timeDeltaDone c2 = false /\ timeDelta c2 = timeDelta c /\
       timeDeltaMutex c2 = false /\
       forall fuel' w3 r,
         getTimeDeltaN (callN fuel') c2 w3 = Ret r ->
         exists r', getTime (callN fuel') (set_mutex true c2) w3 = Ret r')
  /\
  (timeDeltaDone c = false ->
   forall c1 w1 t,
     getTime (callN fuel) (set_mutex true c) w = Ret (c1, w1, Ok t) ->
     exists c2 d,
       getTimeDeltaN (callN fuel) c w = Ret (c2, tick w1, (d, None)) /\
       d = time_Sub (local_clock (clock_reads w1)) t /\
       timeDeltaDone c2 = true /\ timeDelta c2 = d /\
       timeDeltaMutex c2 = false /\
       forall call w3, getTimeDeltaN call c2 w3 = Ret (c2, w3, (d, None)))
  /\
  (forall ctx method path reqBody result q headers needAuth c' w' v e,
     callN fuel c w ctx method path reqBody result q headers needAuth
       = Ret (c', w', v, e) ->
     timeDeltaDone c' = timeDeltaDone c /\ timeDelta c' = timeDelta c).
Proof.
  intros Hmut. repeat split.
  - intros Hdone call. unfold getTimeDelta. rewrite Hdone. reflexivity.
  - intros Hdone c1 w1 err Hget.
    pose proof (getTime_frame _ _ _ _ _ _ Hget) as Hsame.
    apply same_client_fields in Hsame as (Hd & Hdl & Hm & _ & _). simpl in *.
    exists (set_mutex false c1).
    split; [|split; [|split; [|split]]].
    + unfold getTimeDelta. rewrite Hdone, Hmut. simpl. rewrite Hdone. simpl.
      rewrite Hget. reflexivity.
    + simpl. congruence.
    + simpl. congruence.
    + reflexivity.
    + intros fuel' w3 r. unfold getTimeDelta. simpl.
      rewrite Hd, Hdone. simpl.
      intros H. apply bind_Ret_inv in H as [r' [H _]]. eauto.
  - intros Hdone c1 w1 t Hget.
    exists (set_mutex false
              (set_timeDelta (time_Sub (local_clock (clock_reads w1)) t) true c1)),
           (time_Sub (local_clock (clock_reads w1)) t).
    split; [|split; [|split; [|split; [|split]]]]; try reflexivity.
    + unfold getTimeDelta. rewrite Hdone, Hmut. simpl. rewrite Hdone. simpl.
      rewrite Hget. reflexivity.
  - apply call_frame in H. apply same_client_fields in H. tauto.
  - apply call_frame in H. apply same_client_fields in H. tauto.
Qed.

(** C10, on the code.  A signed-mode client (empty token) whose offset is
    not cached never returns from a call whose request can be built:
    [NewRequest] takes the mutex in [getTimeDelta], the time fetch comes
    back to [NewRequest] through [getTime], [GetUnAuth] and [CallAPI] on the
    same client, and [getTimeDelta] blocks in [Lock] on the mutex the chain
    already holds. *)
Theorem signed_call_blocks_forever
    fuel c w ctx method path reqBody result q headers needAuth body url url_time :
  openStackToken c = "" ->
  timeDeltaDone c = false ->
  timeDeltaMutex c = false ->
  marshalN reqBody = Ok body ->
  http_NewRequest method (endpoint c +:+ path) = Ok url ->
  http_NewRequest "GET" (endpoint c +:+ "/auth/time") = Ok url_time ->
  callN (S (S fuel)) c w ctx method path reqBody result q headers needAuth = Deadlock
  /\ forall n r, callN n c w ctx method path reqBody result q headers needAuth <> Ret r.
Proof.
  intros Htok Hdone Hmut Hbody Hurl Htime.
  assert (Hinner : forall n,
             getTimeDeltaN (callN (S n)) c w = Deadlock).
  { intros n. unfold getTimeDelta. rewrite Hdone, Hmut. simpl. rewrite Hdone. simpl.
    unfold getTime, GetUnAuth, CallAPI. simpl.
    unfold CallAPIWithContext_body at 1. unfold NewRequest at 1. simpl.
    rewrite Htime, Htok. simpl.
    unfold TimeDelta, getTimeDelta. simpl. rewrite Hdone. reflexivity. }
  assert (Houter : forall n,
             callN (S (S n)) c w ctx method path reqBody result q headers needAuth
             = Deadlock).
  { intros n. change (callN (S (S n))) with (bodyN (callN (S n))).
    unfold CallAPIWithContext_body, NewRequest.
    rewrite Hbody, Hurl, Htok. unfold TimeDelta.
    rewrite Hinner. reflexivity. }
  split; [apply Houter|].
  intros [|[|n]] r.
  - discriminate.
  - simpl. unfold CallAPIWithContext_body, NewRequest.
    rewrite Hbody, Hurl, Htok. simpl.
    unfold TimeDelta, getTimeDelta. rewrite Hdone, Hmut. simpl. rewrite Hdone.
    discriminate.
  - rewrite Houter. discriminate.
Qed.


(** ** Decoding *)

(** C7, as the code has it.  When the body of the response is read:
    - on a status outside [200, 300) the error is an [APIError] that is the
      result of decoding the body into an [APIError] holding the status
      code, so its [Code] is the status code whenever the decoding leaves
      that field alone; its [Message] is the decoded one when the body
      parses and the raw body otherwise; its [QueryID] is the response
      header [X-VKE-QueryID]; the sink is not touched;
    - on a status inside [200, 300) with an empty body or a nil sink, there
      is no error and the sink is not touched, whatever the decoder;
    - on a status inside [200, 300) with a body and a sink, the sink and
      the error are the decoder's, and the error is never an [APIError].
    When reading the body fails, the error of the read is returned and the
    sink is not touched, whatever the status, the headers and the sink. *)
Theorem UnmarshalResponse_decodes response result :
  (forall body,
      RespBody response = Ok body ->
      let status := StatusCode response in
      let decoded :=
        json_Unmarshal_APIError body {| Code := status; Message := ""; QueryID := "" |} in
      (status < 200 \/ 300 <= status ->
       exists a,
         UnmarshalN response result = (result, Some (ErrAPI a)) /\
         Code a = Code (fst decoded) /\
         (Code (fst decoded) = status -> Code a = status) /\
         Message a = match snd decoded with
                     | None => Message (fst decoded)
                     | Some _ => body
                     end /\
         QueryID a = Header_Get "X-VKE-QueryID" (RespHeader response))
      /\
      (200 <= status < 300 -> body = "" \/ result = None ->
       UnmarshalN response result = (result, None))
      /\
      (200 <= status < 300 -> body <> "" ->
       forall v, result = Some v ->
         UnmarshalN response result
           = (Some (fst (json_Unmarshal body v)), ErrDecode <$> snd (json_Unmarshal body v))
         /\ forall e, snd (UnmarshalN response result) = Some e -> is_APIError e = false))
  /\
  (forall err,
      RespBody response = Err err ->
      UnmarshalN response result = (result, Some err)).
Proof.
  split.
  2:{ intros err Herr. unfold UnmarshalResponse. rewrite Herr. reflexivity. }
  intros body Hbody status decoded. unfold UnmarshalResponse. rewrite Hbody.
  fold status. split; [|split].
  - intros Hout.
    assert ((status <? 200) || (status >=? 300) = true) as ->.
    { apply orb_true_iff. destruct Hout; [left; lia | right; lia]. }
    subst decoded.
    destruct (json_Unmarshal_APIError body _) as [a' [msg|]]; simpl;
      eexists; (split; [reflexivity|]); simpl; auto.
  - intros Hin Hempty.
    assert ((status <? 200) || (status >=? 300) = false) as ->.
    { apply orb_false_iff. split; lia. }
    destruct result as [v|]; [|reflexivity].
    destruct Hempty as [-> | ?]; [reflexivity | discriminate].
  - intros Hin Hne v ->.
    assert ((status <? 200) || (status >=? 300) = false) as ->.
    { apply orb_false_iff. split; lia. }
    assert (Hlen : (String.length body =? 0)%nat = false).
    { destruct body; [contradiction | reflexivity]. }
    rewrite Hlen.
    destruct (json_Unmarshal body v) as [v' [msg|]]; simpl; split; try reflexivity.
    + intros e [= <-]. reflexivity.
    + intros e. discriminate.
Qed.

(** ** Request bodies *)

Lemma NewRequest_shape call c w method path reqBody q headers needAuth c1 w1 req body :
  marshalN reqBody = Ok body ->
  NewRequestN call c w method path reqBody q headers needAuth = Ret (c1, w1, Ok req) ->
  Method req = method /\ ReqBody req = default "" body /\
  ReqContext req = Background /\
  ReqHeader req = inject_headers fmt_Sprintf (openStackToken c) body headers.
Proof.
  intros Hbody. unfold NewRequest. rewrite Hbody.
  destruct (http_NewRequest method _) as [url|err]; [|intros; by simplify_eq].
  destruct (String.eqb (openStackToken c) ""); simpl; [|intros; by simplify_eq].
  intros H. apply bind_Ret_inv in H as [[[c2 w2] [d [e|]]] [_ H]];
    simpl in H; by simplify_eq.
Qed.

(** Every request a call dispatches, fallbacks included, carries the method,
    the marshalled [reqBody], the context and the headers of the call. *)
Lemma dispatched_requests fuel :
  forall c w ctx method path reqBody result q headers needAuth c' w' v e body,
    marshalN reqBody = Ok body ->
    callN fuel c w ctx method path reqBody result q headers needAuth
      = Ret (c', w', v, e) ->
    exists reqs,
      dispatched w' = dispatched w ++ reqs /\
      Forall (fun r => Method r = method /\ ReqBody r = default "" body /\
                       ReqContext r = ctx /\
                       ReqHeader r
                       = inject_headers fmt_Sprintf (openStackToken c) body headers)
             reqs.
Proof.
  induction fuel as [|fuel IH]; intros * Hbody; simpl; [discriminate|].
  unfold CallAPIWithContext_body. intros H.
  apply bind_Ret_inv in H as [[[c1 w1] r1] [H1 H2]].
  pose proof H1 as Hframe. apply NewRequest_frame in Hframe as (Hsame & Hd & _).
  apply same_client_fields in Hsame as (_ & _ & _ & Htok & _).
  destruct r1 as [req|err]; simpl in H2.
  2:{ simplify_eq. exists []. rewrite app_nil_r. split; [done|constructor]. }
  apply (NewRequest_shape _ _ _ _ _ _ _ _ _ _ _ _ _ Hbody) in H1
    as (Hm & Hb & _ & Hh).
  assert (Hreq : Method (WithContext ctx req) = method /\
                 ReqBody (WithContext ctx req) = default "" body /\
                 ReqContext (WithContext ctx req) = ctx /\
                 ReqHeader (WithContext ctx req)
                 = inject_headers fmt_Sprintf (openStackToken c) body headers)
    by (simpl; auto).
  destruct (DoN c1 w1 _) as [w2 r2] eqn:Hdo. apply Do_dispatched in Hdo.
  assert (Hone : exists reqs,
             dispatched w2 = dispatched w ++ reqs /\
             Forall (fun r => Method r = method /\ ReqBody r = default "" body /\
                              ReqContext r = ctx /\
                              ReqHeader r
                              = inject_headers fmt_Sprintf (openStackToken c) body headers)
                    reqs).
  { exists [WithContext ctx req]. rewrite Hdo, Hd. split; [done|].
    constructor; [exact Hreq|constructor]. }
  destruct r2 as [response|err]; simpl in H2; [|by simplify_eq].
  destruct (UnmarshalN response result) as [v1 [err|]]; simpl in H2; [|by simplify_eq].
  destruct (IsPossiblyCanadianTenantSyncError err _); simpl in H2; [|by simplify_eq].
  destruct (NewClientN VKE "none" "none" "") as [client|err2];
    simpl in H2; [|by simplify_eq].
  apply bind_Ret_inv in H2 as [[[[c3 w3] v3] e3] [Hfb H3]].
  apply (IH _ _ _ _ _ _ _ _ _ _ _ _ _ _ _ Hbody) in Hfb as (reqs & Hreqs & Hall).
  replace (openStackToken (set_openStackToken (openStackToken c1) client))
    with (openStackToken c) in Hall by (symmetry; exact Htok).
  exists (WithContext ctx req :: reqs).
  assert (w' = w3) as -> by (destruct e3; by simplify_eq).
  rewrite Hreqs, Hdo, Hd, <- app_assoc. split; [done|].
  constructor; [exact Hreq|exact Hall].
Qed.


Local Abbreviation UpdateNodePoolN :=
  (UpdateNodePool VKE IsPossiblyCanadianTenantSyncError http_NewRequest
     RoundTrip json_string json_Marshal_other json_Unmarshal
     json_Unmarshal_APIError fmt_Sprintf local_clock).


(** ** The node-pool operations *)

Local Abbreviation opN op :=
  (op VKE IsPossiblyCanadianTenantSyncError http_NewRequest
      RoundTrip json_string json_Marshal_other json_Unmarshal
      json_Unmarshal_APIError fmt_Sprintf local_clock).


(** ** The bound on the call depth *)

Section Monotone.

Variables call1 call2 :
  Client -> World -> Context -> string -> string -> option Payload ->
  option Value -> url_Values -> list (string * string) -> bool ->
  Outcome CallResult.

Hypothesis call_approx :
  forall c w ctx method path reqBody result q headers needAuth,
    approx (call1 c w ctx method path reqBody result q headers needAuth)
           (call2 c w ctx method path reqBody result q headers needAuth).

Lemma getTime_approx c w : approx (getTime call1 c w) (getTime call2 c w).
Proof.
  unfold getTime, GetUnAuth, CallAPI.
  apply approx_bind; [apply call_approx | intros; apply approx_refl].
Qed.

Lemma getTimeDelta_approx c w :
  approx (getTimeDeltaN call1 c w) (getTimeDeltaN call2 c w).
Proof.
  unfold getTimeDelta.
  destruct (negb (timeDeltaDone c)); [|apply approx_refl].
  destruct (timeDeltaMutex c); [apply approx_refl|].
  destruct (negb (timeDeltaDone (set_mutex true c))); [|apply approx_refl].
  apply approx_bind; [apply getTime_approx | intros; apply approx_refl].
Qed.

Lemma NewRequest_approx c w method path reqBody q headers needAuth :
  approx (NewRequestN call1 c w method path reqBody q headers needAuth)
         (NewRequestN call2 c w method path reqBody q headers needAuth).
Proof.
  unfold NewRequest.
  destruct (marshalN reqBody) as [body|err]; [|apply approx_refl].
  destruct (http_NewRequest method _) as [url|err]; [|apply approx_refl].
  destruct (String.eqb (openStackToken c) ""); [|apply approx_refl].
  apply approx_bind; [apply getTimeDelta_approx | intros; apply approx_refl].
Qed.

Lemma body_approx c w ctx method path reqBody result q headers needAuth :
  approx (bodyN call1 c w ctx method path reqBody result q headers needAuth)
         (bodyN call2 c w ctx method path reqBody result q headers needAuth).
Proof.
  unfold CallAPIWithContext_body.
  apply approx_bind; [apply NewRequest_approx|].
  intros [[c1 w1] [req|err]]; [|apply approx_refl].
  destruct (DoN c1 w1 _) as [w2 [response|err]]; [|apply approx_refl].
  destruct (UnmarshalN response result) as [v1 [err|]]; [|apply approx_refl].
  destruct (IsPossiblyCanadianTenantSyncError err _); [|apply approx_refl].
  destruct (NewClientN VKE "none" "none" "") as [client|err2]; [|apply approx_refl].
  apply approx_bind; [apply call_approx | intros; apply approx_refl].
Qed.

End Monotone.

Lemma call_approx_S fuel :
  forall c w ctx method path reqBody result q headers needAuth,
    approx (callN fuel c w ctx method path reqBody result q headers needAuth)
           (callN (S fuel) c w ctx method path reqBody result q headers needAuth).
Proof.
  induction fuel as [|fuel IH]; intros; [left; reflexivity|].
  change (callN (S (S fuel))) with (bodyN (callN (S fuel))).
  change (callN (S fuel)) with (bodyN (callN fuel)) at 1.
  apply body_approx. exact IH.
Qed.

(** ** Bearer mode and construction *)

(** X3.  With a token, [NewRequest] makes no time fetch, reads no clock and
    writes nothing to a hasher: it returns the request with the token in the
    header [X-Auth-Token], under the caller's headers. *)
Theorem bearer_request_not_signed
    call c w method path reqBody q headers needAuth body url :
  openStackToken c <> "" ->
  marshalN reqBody = Ok body ->
  http_NewRequest method (endpoint c +:+ path) = Ok url ->
  NewRequestN call c w method path reqBody q headers needAuth
  = Ret (set_ClientTimeout (Timeout c) c, w,
         Ok {| Method := method; URL := url;
               ReqHeader :=
                 fold_left (fun h kv => Header_Set (fst kv) (snd kv) h) headers
                   (Header_Add "X-Auth-Token" (fmt_Sprintf (openStackToken c))
                      (Header_Add "Accept" "application/json"
                         match body with
                         | Some _ => Header_Add "Content-Type"
                                       "application/json;charset=utf-8" ∅
                         | None => ∅
                         end));
               ReqBody := default "" body; ReqContext := Background |}).
Proof.
  intros Htok Hbody Hurl. apply String.eqb_neq in Htok.
  unfold NewRequest, inject_headers. rewrite Hbody, Hurl, Htok. simpl.
  destruct body; reflexivity.
Qed.

Lemma contains_slash_nonempty name : contains_slash name = true -> String.eqb name "" = false.
Proof. destruct name; [discriminate | reflexivity]. Qed.

(** X4.  [NewClient] fails on a name that is neither a URL nor a key of
    [Endpoints], with an error that names it; on a URL it fails when the
    application key or the application secret is empty, with an error that
    names what is missing; otherwise it returns a client for that URL, with
    the default timeout, no cached offset and a free mutex. *)
Theorem NewClient_configuration (tenantid : string) :
  (forall name appKey appSecret,
      contains_slash name = false -> name <> "vke" ->
      NewClientN name appKey appSecret tenantid
      = Err (ErrConfig ("unknown endpoint '" +:+ name +:+
                        "', consider checking 'Endpoints' list of using an URL")))
  /\
  (forall name appSecret,
      contains_slash name = true ->
      NewClientN name "" appSecret tenantid
      = Err (ErrConfig "missing application key, please check your configuration or consult the documentation to create one"))
  /\
  (forall name appKey,
      contains_slash name = true -> appKey <> "" ->
      NewClientN name appKey "" tenantid
      = Err (ErrConfig "missing application secret, please check your configuration or consult the documentation to create one"))
  /\
  (forall name appKey appSecret,
      contains_slash name = true -> appKey <> "" -> appSecret <> "" ->
      NewClientN name appKey appSecret tenantid
      = Ok {| AppKey := appKey; AppSecret := appSecret; endpoint := name;
              ClientTimeout := 0; Logger := false;
              timeDeltaMutex := false; timeDeltaDone := false; timeDelta := 0;
              Timeout := DefaultTimeout; openStackToken := "" |}).
Proof.
  unfold NewClient, loadConfig. repeat split.
  - intros name appKey appSecret Hslash Hname. rewrite Hslash. simpl.
    unfold Endpoints. rewrite lookup_singleton_ne by congruence. reflexivity.
  - intros name appSecret Hslash. rewrite Hslash. simpl.
    rewrite (contains_slash_nonempty _ Hslash). reflexivity.
  - intros name appKey Hslash Hkey. rewrite Hslash. simpl.
    rewrite (contains_slash_nonempty _ Hslash).
    apply String.eqb_neq in Hkey. rewrite Hkey. reflexivity.
  - intros name appKey appSecret Hslash Hkey Hsecret. rewrite Hslash. simpl.
    rewrite (contains_slash_nonempty _ Hslash).
    apply String.eqb_neq in Hkey. apply String.eqb_neq in Hsecret.
    rewrite Hkey, Hsecret. reflexivity.
Qed.

End Facts.

(** ** The signing input *)

Lemma list_ascii_of_string_app (a b : string) :
  list_ascii_of_string (a +:+ b) = list_ascii_of_string a ++ list_ascii_of_string b.
Proof. induction a as [|x a IH]; simpl; [reflexivity | rewrite IH; reflexivity]. Qed.

Lemma string_app_inv_tail (a b r : string) : a +:+ r = b +:+ r -> a = b.
Proof.
  intros H. apply (f_equal list_ascii_of_string) in H.
  rewrite !list_ascii_of_string_app in H. apply app_inv_tail in H.
  rewrite <- (string_of_list_ascii_of_string a), <- (string_of_list_ascii_of_string b).
  rewrite H. reflexivity.
Qed.

(** X1.  The signing input is a function of the six fields, laid out in the
    fixed order secret, method, endpoint, path, body, timestamp; with the
    other five fields fixed, two values of one field give the same signing
    input exactly when they are equal. *)
Theorem signing_input_sensitive secret method endpoint path body timestamp :
  (forall x, signing_input x method endpoint path body timestamp
             = signing_input secret method endpoint path body timestamp <-> x = secret)
  /\ (forall x, signing_input secret x endpoint path body timestamp
                = signing_input secret method endpoint path body timestamp <-> x = method)
  /\ (forall x, signing_input secret method x path body timestamp
                = signing_input secret method endpoint path body timestamp <-> x = endpoint)
  /\ (forall x, signing_input secret method endpoint x body timestamp
                = signing_input secret method endpoint path body timestamp <-> x = path)
  /\ (forall x, signing_input secret method endpoint path x timestamp
                = signing_input secret method endpoint path body timestamp <-> x = body)
  /\ (forall x, signing_input secret method endpoint path body x
                = signing_input secret method endpoint path body timestamp <-> x = timestamp)
  /\ exists d1 d2 d3 d4 d5 : string,
      forall s m e p b t,
        signing_input s m e p b t
        = s +:+ d1 +:+ m +:+ d2 +:+ e +:+ d3 +:+ p +:+ d4 +:+ b +:+ d5 +:+ pretty t.
Proof.
  unfold signing_input.
  repeat match goal with |- _ /\ _ => split end;
    try (intros x; split; [intros H | intros ->; reflexivity]).
  - by apply string_app_inv_tail in H.
  - do 2 apply (inj (String.app _)) in H. by apply string_app_inv_tail in H.
  - do 4 apply (inj (String.app _)) in H. by apply string_app_inv_tail in H.
  - do 6 apply (inj (String.app _)) in H. by apply string_app_inv_tail in H.
  - do 7 apply (inj (String.app _)) in H. by apply string_app_inv_tail in H.
  - do 9 apply (inj (String.app _)) in H. by apply (inj pretty) in H.
  - exists "+", "+", "+", "", "+". reflexivity.
Qed.


Lemma fallback_result_or_original_error_witness :
  Demo.call Demo.crossRegion Demo.fallback_answers 2 Demo.eu_bearer empty_World
    Background "GET" "/auth/time" None (Some (VInt64 0)) [] [] false
  = Ret (set_ClientTimeout DefaultTimeout Demo.eu_bearer,
         add_dispatch (Demo.time_request Demo.VKE)
           (add_dispatch (Demo.time_request "https://eu.vke.example") empty_World),
         Some (VInt64 1700000000), None)
  /\
  Demo.call Demo.crossRegion Demo.fallback_fails 2 Demo.eu_bearer empty_World
    Background "GET" "/auth/time" None (Some (VInt64 0)) [] [] false
  = Ret (set_ClientTimeout DefaultTimeout Demo.eu_bearer,
         add_dispatch (Demo.time_request Demo.VKE)
           (add_dispatch (Demo.time_request "https://eu.vke.example") empty_World),
         Some (VInt64 0),
         Some (ErrAPI {| Code := 403; Message := "This service does not exist";
                         QueryID := "q-1" |})).
Proof.
  split.
  - eapply eq_trans.
    + unfold Demo.call. eapply fallback_result_or_original_error.
      * vm_compute. reflexivity.
      * vm_compute. reflexivity.
      * vm_compute. reflexivity.
      * vm_compute. reflexivity.
      * vm_compute. reflexivity.
      * vm_compute. reflexivity.
    + vm_compute. reflexivity.
  - eapply eq_trans.
    + unfold Demo.call. eapply fallback_result_or_original_error.
      * vm_compute. reflexivity.
      * vm_compute. reflexivity.
      * vm_compute. reflexivity.
      * vm_compute. reflexivity.
      * vm_compute. reflexivity.
      * vm_compute. reflexivity.
    + vm_compute. reflexivity.
Defined.

Lemma fallback_hops_witness :
  exists reqs,
    dispatched
      (add_dispatch (Demo.time_request Demo.VKE)
         (add_dispatch (Demo.time_request "https://eu.vke.example") empty_World))
    = dispatched empty_World ++ reqs /\ (length reqs <= 2)%nat.
Proof.
  eapply (proj2 (fallback_hops Demo.VKE Demo.crossRegion Demo.http_NewRequest
                   Demo.fallback_answers Demo.json_string Demo.json_Marshal_other
                   Demo.json_Unmarshal Demo.json_Unmarshal_APIError Demo.fmt_Sprintf
                   Demo.local_clock 2 Demo.eu_bearer empty_World Background
                   "GET" "/auth/time" None (Some (VInt64 0)) [] [] false)).
  - intros client err url Hnew Hurl.
    vm_compute in Hnew. injection Hnew as <-.
    vm_compute in Hurl. injection Hurl as <-.
    destruct err; try reflexivity.
    unfold Demo.crossRegion. apply andb_false_r.
  - vm_compute. reflexivity.
Defined.

(** C2, as stated, fails in both directions.  With a classifier that takes
    a 403 answer for the cross-region condition whatever the endpoint, and a
    provider that refuses twice before it answers, one call of the caller
    dispatches three requests.  And where [VKE_URL] is not set, no fallback
    client can be built: a call whose error is classified dispatches one
    request, issues no fallback call and returns the wrapped error of
    [NewClient]. *)
Lemma fallback_fails_over_again :
  length <$> dispatches_of
    (Demo.call Demo.anyRegion Demo.refused_twice 3 Demo.ca_bearer empty_World
       Background "GET" "/cluster/c1/nodegroups" None (Some (VNodePools [])) [] [] true)
  = Some 3%nat
  /\
  error_of
    (Demo.call Demo.anyRegion Demo.refused_twice 3 Demo.ca_bearer empty_World
       Background "GET" "/cluster/c1/nodegroups" None (Some (VNodePools [])) [] [] true)
  = Some None
  /\
  length <$> dispatches_of
    (Demo.call_in "" Demo.crossRegion Demo.fallback_answers 3 Demo.eu_bearer empty_World
       Background "GET" "/cluster/c1/nodegroups" None (Some (VNodePools [])) [] [] true)
  = Some 1%nat
  /\
  error_of
    (Demo.call_in "" Demo.crossRegion Demo.fallback_answers 3 Demo.eu_bearer empty_World
       Background "GET" "/cluster/c1/nodegroups" None (Some (VNodePools [])) [] [] true)
  = Some (Some (ErrWrap "failed to create canadian VKE API client for fallback: "
                  (ErrConfig "unknown endpoint '', consider checking 'Endpoints' list of using an URL"))).
Proof. repeat split; vm_compute; reflexivity. Qed.

Lemma getTimeDelta_caches_witness :
  timeDeltaMutex Demo.ca_bearer = false /\
  (exists c2,
      getTimeDelta Demo.local_clock (Demo.call Demo.crossRegion Demo.flaky 1)
        Demo.ca_bearer empty_World
      = Ret (c2, Demo.one_fetch, (0, Some (ErrTransport "connection refused"))) /\
      timeDeltaDone c2 = false /\ timeDelta c2 = 0 /\ timeDeltaMutex c2 = false) /\
  (exists c2 d,
      getTimeDelta Demo.local_clock (Demo.call Demo.crossRegion Demo.flaky 1)
        (set_ClientTimeout DefaultTimeout Demo.ca_bearer) Demo.one_fetch
      = Ret (c2, tick (add_dispatch (Demo.time_request Demo.VKE) Demo.one_fetch),
             (d, None)) /\
      d = 100 * Second /\ timeDeltaDone c2 = true /\ timeDelta c2 = d /\
      forall call w3, getTimeDelta Demo.local_clock call c2 w3 = Ret (c2, w3, (d, None))).
Proof.
  split; [reflexivity|]. split.
  - destruct (getTimeDelta_caches Demo.VKE Demo.crossRegion Demo.http_NewRequest
                Demo.flaky Demo.json_string Demo.json_Marshal_other
                Demo.json_Unmarshal Demo.json_Unmarshal_APIError Demo.fmt_Sprintf
                Demo.local_clock 1 Demo.ca_bearer empty_World eq_refl)
      as (_ & Hfail & _ & _).
    destruct (Hfail eq_refl
                (set_mutex true (set_ClientTimeout DefaultTimeout Demo.ca_bearer))
                Demo.one_fetch (ErrTransport "connection refused"))
      as (c2 & H1 & H2 & H3 & H4 & _).
    + vm_compute. reflexivity.
    + exists c2. auto.
  - destruct (getTimeDelta_caches Demo.VKE Demo.crossRegion Demo.http_NewRequest
                Demo.flaky Demo.json_string Demo.json_Marshal_other
                Demo.json_Unmarshal Demo.json_Unmarshal_APIError Demo.fmt_Sprintf
                Demo.local_clock 1 (set_ClientTimeout DefaultTimeout Demo.ca_bearer)
                Demo.one_fetch eq_refl)
      as (_ & _ & Hok & _).
    destruct (Hok eq_refl
                (set_mutex true (set_ClientTimeout DefaultTimeout Demo.ca_bearer))
                (add_dispatch (Demo.time_request Demo.VKE) Demo.one_fetch)
                (time_Unix 1700000000))
      as (c2 & d & H1 & H2 & H3 & H4 & _ & H5).
    + vm_compute. reflexivity.
    + exists c2, d. split; [exact H1|]. split; [|split; [exact H3|split; [exact H4|exact H5]]].
      rewrite H2. vm_compute. reflexivity.
Defined.

Lemma signed_call_blocks_forever_witness :
  Demo.call Demo.crossRegion Demo.fallback_answers 2 Demo.eu_signed empty_World
    Background "GET" "/cluster/c1/nodegroups" None (Some (VNodePools [])) [] [] true
  = Deadlock
  /\
  forall n r,
    Demo.call Demo.crossRegion Demo.fallback_answers n Demo.eu_signed empty_World
      Background "GET" "/cluster/c1/nodegroups" None (Some (VNodePools [])) [] [] true
    <> Ret r.
Proof.
  unfold Demo.call.
  eapply signed_call_blocks_forever with (fuel := 0%nat); reflexivity.
Defined.


Lemma UnmarshalResponse_decodes_witness :
  (exists a,
      Demo.unmarshal
        {| StatusCode := 404; RespHeader := ∅;
           RespBody := Ok (Demo.error_body 404 "not found") |} None
      = (None, Some (ErrAPI a)) /\
      Code a = 404 /\ Message a = "not found")
  /\
  (exists a,
      Demo.unmarshal
        {| StatusCode := 500; RespHeader := {[ "X-Vke-Queryid" := ["q-7"] ]};
           RespBody := Ok "boom" |} None
      = (None, Some (ErrAPI a)) /\
      Code a = 500 /\ Message a = "boom" /\ QueryID a = "q-7")
  /\
  Demo.unmarshal
    {| StatusCode := 200; RespHeader := ∅;
       RespBody := Err (ErrReadBody "unexpected EOF") |} (Some (VInt64 7))
  = (Some (VInt64 7), Some (ErrReadBody "unexpected EOF")).
Proof.
  split; [|split].
  - pose proof (proj1 (UnmarshalResponse_decodes Demo.json_Unmarshal
                         Demo.json_Unmarshal_APIError
                         {| StatusCode := 404; RespHeader := ∅;
                            RespBody := Ok (Demo.error_body 404 "not found") |}
                         None) _ eq_refl) as H.
    cbv zeta in H. destruct H as (H & _ & _).
    destruct H as (a & Heq & Hcode & _ & Hmsg & _); [right; simpl; lia|].
    exists a. split; [exact Heq|]. split; [exact Hcode | exact Hmsg].
  - pose proof (proj1 (UnmarshalResponse_decodes Demo.json_Unmarshal
                         Demo.json_Unmarshal_APIError
                         {| StatusCode := 500; RespHeader := {[ "X-Vke-Queryid" := ["q-7"] ]};
                            RespBody := Ok "boom" |}
                         None) _ eq_refl) as H.
    cbv zeta in H. destruct H as (H & _ & _).
    destruct H as (a & Heq & Hcode & _ & Hmsg & Hq); [right; simpl; lia|].
    exists a. split; [exact Heq|]. split; [exact Hcode|]. split; [exact Hmsg | exact Hq].
  - apply (proj2 (UnmarshalResponse_decodes Demo.json_Unmarshal
                    Demo.json_Unmarshal_APIError
                    {| StatusCode := 200; RespHeader := ∅;
                       RespBody := Err (ErrReadBody "unexpected EOF") |}
                    (Some (VInt64 7)))).
    reflexivity.
Defined.

(** C7, as stated, fails twice: a body that parses and carries a code of its
    own overrides the status code, and a body that cannot be read gives the
    read error, not an [APIError]. *)
Lemma body_code_overrides_status :
  Demo.unmarshal
    {| StatusCode := 404; RespHeader := ∅;
       RespBody := Ok (Demo.error_body 400 "gone") |} None
  = (None, Some (ErrAPI {| Code := 400; Message := "gone"; QueryID := "" |}))
  /\
  Demo.unmarshal
    {| StatusCode := 500; RespHeader := ∅;
       RespBody := Err (ErrReadBody "unexpected EOF") |} None
  = (None, Some (ErrReadBody "unexpected EOF")).
Proof. split; vm_compute; reflexivity. Qed.



Lemma bearer_request_not_signed_witness :
  NewRequest Demo.http_NewRequest Demo.json_string Demo.json_Marshal_other
    Demo.fmt_Sprintf Demo.local_clock
    (Demo.call Demo.crossRegion Demo.fallback_answers 0)
    Demo.eu_bearer empty_World "GET" "/auth/time" None [] [] false
  = Ret (set_ClientTimeout DefaultTimeout Demo.eu_bearer, empty_World,
         Ok (Demo.time_request "https://eu.vke.example")).
Proof.
  eapply eq_trans.
  - eapply bearer_request_not_signed; [discriminate | reflexivity | reflexivity].
  - vm_compute. reflexivity.
Defined.


Lemma NewClient_configuration_witness :
  NewClient Demo.VKE "ovh-eu" "key" "secret" ""
  = Err (ErrConfig "unknown endpoint 'ovh-eu', consider checking 'Endpoints' list of using an URL")
  /\
  NewClient Demo.VKE Demo.VKE "none" "none" ""
  = Ok (Demo.client Demo.VKE "").
Proof.
  destruct (NewClient_configuration Demo.VKE "") as (Hunknown & _ & _ & Hok).
  split.
  - apply (Hunknown "ovh-eu" "key" "secret"); [reflexivity | discriminate].
  - apply (Hok Demo.VKE "none" "none"); [reflexivity | discriminate | discriminate].
Defined.

(** ** Concurrent callers of [getTimeDelta] *)

Import Racers.

(** A goroutine found after a move is the one that moved, or was there before. *)
Lemma lookup_move (l : list pc) i j p q :
  <[i := p]> l !! j = Some q ->
  (j = i /\ q = p) \/ (j <> i /\ l !! j = Some q).
Proof.
  destruct (decide (i = j)) as [->|Hne].
  - intros H. left. split; [done|].
    destruct (decide (j < length l)%nat) as [Hlt|Hge].
    + rewrite list_lookup_insert_eq in H by done. by simplify_eq.
    + rewrite list_insert_ge in H by lia. apply lookup_lt_Some in H. lia.
  - rewrite list_lookup_insert_ne by done. intros H. right. split; [congruence|done].
Qed.

(** The invariant holds before any goroutine has moved. *)
Lemma inv_init n : inv (init n).
Proof.
  constructor; simpl; intros.
  all: try (match goal with H : replicate _ _ !! _ = Some _ |- _ =>
         apply lookup_replicate in H as [? _]; simplify_eq end).
  all: try discriminate.
  all: try (left; reflexivity).
  all: try (match goal with H : has_value _ _ |- _ => destruct H; discriminate end).
  all: try (match goal with H : has_error _ _ _ |- _ => destruct H; discriminate end).
Qed.

Ltac split_lookups :=
  repeat match goal with
  | H : <[_ := _]> _ !! _ = Some _ |- _ =>
      apply lookup_move in H as [[? ?] | [? H]]; simplify_eq
  end.

Ltac kill_shapes :=
  repeat match goal with
  | H : has_value _ _ |- _ => destruct H as [H|H]; try discriminate H
  | H : has_error _ _ _ |- _ => destruct H as [H|H]; try discriminate H
  end.

Lemma writing_holds p : writing p = true -> holds p = true.
Proof. destruct p; simpl; congruence. Qed.

Lemma writer_other (l : list pc) i j p0 p q :
  l !! i = Some p0 -> writing p0 = false ->
  l !! j = Some q -> writing q = true ->
  <[i := p]> l !! j = Some q.
Proof.
  intros Hi H0 Hj Hq. rewrite list_lookup_insert_ne; [done|].
  intros ->. congruence.
Qed.

Ltac excl_contra :=
  match goal with
  | Hne : ?j <> ?i, Hj : ?l !! ?j = Some ?q, Hi : ?l !! ?i = Some ?p,
    Iexcl : forall i j p q, _ -> _ -> _ -> _ -> i = j |- _ =>
      exfalso; apply Hne; apply (Iexcl j i q p Hj Hi);
      [first [assumption | apply writing_holds; assumption] | reflexivity]
  end.

Ltac use_inv :=
  solve [ eauto
        | congruence
        | lia
        | excl_contra
        | match goal with
          | Ival : forall i p v, _ -> has_value p v -> _,
            H : ?l !! ?i = Some ?p |- _ =>
              eapply (Ival i p _ H); (left + right); reflexivity
          end
        | match goal with
          | Ierr : forall i p v e, _ -> has_error p v e -> _,
            H : ?l !! ?i = Some ?p |- _ =>
              eapply (Ierr i p _ _ H); (left + right); reflexivity
          end
        | match goal with
          | Ierr : forall i p v e, _ -> has_error p v e -> _,
            H : _ !! ?i = Some ?p |- ?v = 0 /\ (_ \/ In (?i, Err ?e) _) =>
              let Hv := fresh in let Hin := fresh in
              destruct (Ierr i p v e H) as [Hv Hin];
              [ (left + right); reflexivity
              | split; [exact Hv | right; exact Hin] ]
          end
        | match goal with
          | Iwr : forall i p, _ -> writing p = true -> _,
            H : ?l !! ?i = Some ?p |- _ =>
              eapply (Iwr i p H); reflexivity
          end
        | match goal with
          | Iread : forall i l, _ -> s_done _ = true,
            H : ?l !! ?i = Some (Reading ?b) |- _ =>
              eapply (Iread i b H)
          end ].

Ltac step_case I :=
  destruct I as [Imut Iexcl Iwr Isucc Idone Iread Ival Ierr];
  constructor; unfold successes in *; simpl; intros; split_lookups; simpl in *;
  try discriminate; kill_shapes; simplify_eq; try use_inv.

(** The count of successful fetches survives a step of a goroutine that is
    not between a successful fetch and the write of the flag. *)
Ltac keep_succ Isucc Hi :=
  destruct Isucc as [? | [? [? | (j & q & Hj & Hq)]]];
  [ left; assumption
  | right; split; [assumption | left; assumption]
  | right; split; [assumption | right; exists j, q; split; [|assumption];
                                eapply writer_other; eauto ] ].

(** Every step keeps the invariant, by cases on the point the moving
    goroutine is at. *)
Lemma inv_step s ch s' : inv s -> step s ch = Some s' -> inv s'.
Proof.
  intros I. unfold step.
  destruct (s_pcs s !! who ch) as [p|] eqn:Hi; [|discriminate].
  destruct p as [| | |t| |l|r|r].
  - (* Entry *)
    intros [= <-]. destruct (s_done s) eqn:Hdone; step_case I.
    keep_succ Isucc Hi.
  - (* WantLock *)
    destruct (s_mutex s) eqn:Hm; [discriminate|]. intros [= <-]. step_case I.
    keep_succ Isucc Hi.
  - (* Holding *)
    destruct (s_done s) eqn:Hdone; [intros [= <-]; step_case I; keep_succ Isucc Hi|].
    assert (Hzero : successes s = 0%nat).
    { destruct (inv_succ _ I) as [? | [_ [? | (j & q & Hj & Hq)]]];
        [assumption | congruence |].
      assert (j = who ch)
        by (eapply (inv_excl _ I); eauto using writing_holds).
      subst j. rewrite Hi in Hj. injection Hj as <-. discriminate Hq. }
    destruct (fetch ch) as [t|e]; intros [= <-]; step_case I.
    right. split; [lia|]. right. exists (who ch), (GotTime t).
    split; [|reflexivity].
    apply list_lookup_insert_eq. eapply lookup_lt_Some; eauto.
  - (* GotTime *)
    intros [= <-]. destruct (inv_writing _ I _ _ Hi eq_refl) as [Hnd Hone].
    step_case I.
    + right. split; [exact Hone|]. right. exists (who ch), WroteDelta.
      split; [|reflexivity].
      apply list_lookup_insert_eq. eapply lookup_lt_Some; eauto.
    + exfalso. destruct (Ival i _ v H) as [Hd _]; [left; reflexivity | congruence].
    + exfalso. destruct (Ival i _ v H) as [Hd _]; [right; reflexivity | congruence].
  - (* WroteDelta *)
    intros [= <-]. destruct (inv_writing _ I _ _ Hi eq_refl) as [Hnd Hone].
    step_case I.
    + destruct (Ival i _ v H) as [_ Hv]; [left; reflexivity | split; [reflexivity | exact Hv]].
    + destruct (Ival i _ v H) as [_ Hv]; [right; reflexivity | split; [reflexivity | exact Hv]].
  - (* Reading *)
    intros [= <-]. pose proof (inv_reading _ I _ _ Hi) as Hd.
    destruct l; step_case I.
  - (* Leaving *)
    intros [= <-]; step_case I.
    keep_succ Isucc Hi.
  - discriminate.
Qed.

(** So does every schedule. *)
Lemma inv_run schedule : forall s s', inv s -> run s schedule = Some s' -> inv s'.
Proof.
  induction schedule as [|ch rest IH]; simpl; intros s s' I H.
  - by simplify_eq.
  - destruct (step s ch) as [s1|] eqn:Hstep; [|discriminate].
    eapply IH; [|exact H]. eapply inv_step; eauto.
Qed.

(** Every fetch made has succeeded or failed. *)
Lemma fetches_split s : length (s_fetches s) = (successes s + failures s)%nat.
Proof.
  unfold successes, failures. induction (s_fetches s) as [|f l IH]; simpl; [reflexivity|].
  destruct (is_ok f); simpl; lia.
Qed.




#[local] Arguments inject_headers : simpl never.

(** * The rest of the package *)

Section MoreFacts.

Variable VKE : string.
Variable IsPossiblyCanadianTenantSyncError : Error -> string -> bool.
Variable http_NewRequest : string -> string -> Result string.
Variable RoundTrip : Z -> list Request -> Request -> Result Response.
Variable json_string : string -> string.
Variable json_Marshal_other : string -> Result string.
Variable json_Unmarshal : string -> Value -> Value * option string.
Variable json_Unmarshal_APIError : string -> APIError -> APIError * option string.
Variable fmt_Sprintf : string -> string.
Variable local_clock : nat -> Z.

Local Abbreviation callN :=
  (CallAPIWithContext VKE IsPossiblyCanadianTenantSyncError http_NewRequest
     RoundTrip json_string json_Marshal_other json_Unmarshal
     json_Unmarshal_APIError fmt_Sprintf local_clock).
Local Abbreviation bodyN :=
  (CallAPIWithContext_body VKE IsPossiblyCanadianTenantSyncError http_NewRequest
     RoundTrip json_string json_Marshal_other json_Unmarshal
     json_Unmarshal_APIError fmt_Sprintf local_clock).
Local Abbreviation NewRequestN :=
  (NewRequest http_NewRequest json_string json_Marshal_other fmt_Sprintf local_clock).
Local Abbreviation getTimeDeltaN := (getTimeDelta local_clock).
Local Abbreviation marshalN := (marshal_reqBody json_string json_Marshal_other).
Local Abbreviation DoN := (Do RoundTrip).
Local Abbreviation UnmarshalN := (UnmarshalResponse json_Unmarshal json_Unmarshal_APIError).
Local Abbreviation NewClientN := (NewClient VKE).

(** ** The request wrappers *)

(** Neither the query parameters nor [needAuth] reach anything a call does:
    [NewRequest] reads neither, and the fallback passes them on unread. *)
Lemma call_ignores_query_and_needAuth fuel :
  forall c w ctx method path reqBody result q q' headers needAuth needAuth',
    callN fuel c w ctx method path reqBody result q headers needAuth
    = callN fuel c w ctx method path reqBody result q' headers needAuth'.
Proof.
  induction fuel as [|fuel IH]; intros; [reflexivity|].
  simpl. unfold CallAPIWithContext_body.
  change (NewRequestN (callN fuel) c w method path reqBody q headers needAuth)
    with (NewRequestN (callN fuel) c w method path reqBody q' headers needAuth').
  destruct (NewRequestN (callN fuel) c w method path reqBody q' headers needAuth')
    as [[[c1 w1] [req|err]]| |]; simpl; try reflexivity.
  destruct (DoN c1 w1 _) as [w2 [response|err]]; simpl; try reflexivity.
  destruct (UnmarshalN response result) as [v1 [err|]]; simpl; try reflexivity.
  destruct (IsPossiblyCanadianTenantSyncError err _); simpl; try reflexivity.
  destruct (NewClientN VKE "none" "none" "") as [client|err2]; simpl; try reflexivity.
  rewrite (IH _ w2 ctx method path reqBody v1 q q' headers needAuth needAuth').
  reflexivity.
Qed.

Local Abbreviation GetN :=
  (Get VKE IsPossiblyCanadianTenantSyncError http_NewRequest RoundTrip json_string
     json_Marshal_other json_Unmarshal json_Unmarshal_APIError fmt_Sprintf local_clock).

(** X6.  The wrappers for unauthenticated requests do what the authenticated
    ones do, and no wrapper uses its query parameters: [GetUnAuth],
    [PostUnAuth], [PutUnAuth], [DeleteUnAuth] and their [WithContext] forms
    give, with any query parameters, the outcome of [Get], [Post], [Put],
    [Delete] with any other. *)
Theorem unauth_wrappers_same_as_auth fuel c w ctx url reqBody result q q' :
  GetUnAuth (callN fuel) c w url result q = GetN fuel c w url result q'
  /\ PostUnAuth VKE IsPossiblyCanadianTenantSyncError http_NewRequest RoundTrip
       json_string json_Marshal_other json_Unmarshal json_Unmarshal_APIError
       fmt_Sprintf local_clock fuel c w url reqBody result q
     = Post VKE IsPossiblyCanadianTenantSyncError http_NewRequest RoundTrip
         json_string json_Marshal_other json_Unmarshal json_Unmarshal_APIError
         fmt_Sprintf local_clock fuel c w url reqBody result q'
  /\ PutUnAuth VKE IsPossiblyCanadianTenantSyncError http_NewRequest RoundTrip
       json_string json_Marshal_other json_Unmarshal json_Unmarshal_APIError
       fmt_Sprintf local_clock fuel c w url reqBody result q
     = Put VKE IsPossiblyCanadianTenantSyncError http_NewRequest RoundTrip
         json_string json_Marshal_other json_Unmarshal json_Unmarshal_APIError
         fmt_Sprintf local_clock fuel c w url reqBody result q'
  /\ DeleteUnAuth VKE IsPossiblyCanadianTenantSyncError http_NewRequest RoundTrip
       json_string json_Marshal_other json_Unmarshal json_Unmarshal_APIError
       fmt_Sprintf local_clock fuel c w url result q
     = Delete VKE IsPossiblyCanadianTenantSyncError http_NewRequest RoundTrip
         json_string json_Marshal_other json_Unmarshal json_Unmarshal_APIError
         fmt_Sprintf local_clock fuel c w url result q'
  /\ GetUnAuthWithContext VKE IsPossiblyCanadianTenantSyncError http_NewRequest RoundTrip
       json_string json_Marshal_other json_Unmarshal json_Unmarshal_APIError
       fmt_Sprintf local_clock fuel c w ctx url result q
     = GetWithContext VKE IsPossiblyCanadianTenantSyncError http_NewRequest RoundTrip
         json_string json_Marshal_other json_Unmarshal json_Unmarshal_APIError
         fmt_Sprintf local_clock fuel c w ctx url result q'
  /\ PostUnAuthWithContext VKE IsPossiblyCanadianTenantSyncError http_NewRequest RoundTrip
       json_string json_Marshal_other json_Unmarshal json_Unmarshal_APIError
       fmt_Sprintf local_clock fuel c w ctx url reqBody result q
     = PostWithContext VKE IsPossiblyCanadianTenantSyncError http_NewRequest RoundTrip
         json_string json_Marshal_other json_Unmarshal json_Unmarshal_APIError
         fmt_Sprintf local_clock fuel c w ctx url reqBody result q'
  /\ PutUnAuthWithContext VKE IsPossiblyCanadianTenantSyncError http_NewRequest RoundTrip
       json_string json_Marshal_other json_Unmarshal json_Unmarshal_APIError
       fmt_Sprintf local_clock fuel c w ctx url reqBody result q
     = PutWithContext VKE IsPossiblyCanadianTenantSyncError http_NewRequest RoundTrip
         json_string json_Marshal_other json_Unmarshal json_Unmarshal_APIError
         fmt_Sprintf local_clock fuel c w ctx url reqBody result q'
  /\ DeleteUnAuthWithContext VKE IsPossiblyCanadianTenantSyncError http_NewRequest RoundTrip
       json_string json_Marshal_other json_Unmarshal json_Unmarshal_APIError
       fmt_Sprintf local_clock fuel c w ctx url result q
     = DeleteWithContext VKE IsPossiblyCanadianTenantSyncError http_NewRequest RoundTrip
         json_string json_Marshal_other json_Unmarshal json_Unmarshal_APIError
         fmt_Sprintf local_clock fuel c w ctx url result q'.
Proof.
  unfold Get, GetUnAuth, Post, PostUnAuth, Put, PutUnAuth, Delete, DeleteUnAuth,
    GetWithContext, GetUnAuthWithContext, PostWithContext, PostUnAuthWithContext,
    PutWithContext, PutUnAuthWithContext, DeleteWithContext, DeleteUnAuthWithContext,
    CallAPI.
  repeat match goal with |- _ /\ _ => split end;
    apply call_ignores_query_and_needAuth.
Qed.

(** ** The constructors *)

(** X7.  [NewEndpointClient] and [NewDefaultClient] never return a client:
    they pass empty credentials to [NewClient], and [loadConfig] reads neither
    the environment nor a configuration file.  A name that resolves to an
    endpoint fails on the missing application key, every other name on the
    unknown endpoint; [NewDefaultClient] fails on the unknown endpoint [''],
    whatever [VKE_URL] is. *)
Theorem constructors_without_credentials_fail (endpointName : string) :
  NewEndpointClient VKE endpointName
  = Err (ErrConfig
           (if contains_slash endpointName
               || (String.eqb endpointName "vke" && negb (String.eqb VKE ""))
            then "missing application key, please check your configuration or consult the documentation to create one"
            else "unknown endpoint '" +:+ endpointName +:+
                 "', consider checking 'Endpoints' list of using an URL"))
  /\
  NewDefaultClient VKE
  = Err (ErrConfig "unknown endpoint '', consider checking 'Endpoints' list of using an URL").
Proof.
  unfold NewEndpointClient, NewDefaultClient, NewClient, loadConfig, Endpoints.
  split; [|reflexivity].
  destruct (contains_slash endpointName) eqn:Hslash; simpl.
  - rewrite (contains_slash_nonempty _ Hslash). reflexivity.
  - destruct (String.eqb endpointName "vke") eqn:Hname; simpl.
    + apply String.eqb_eq in Hname. subst endpointName.
      rewrite lookup_singleton_eq. simpl.
      destruct (String.eqb VKE ""); reflexivity.
    + apply String.eqb_neq in Hname.
      rewrite lookup_singleton_ne by congruence. reflexivity.
Qed.

(** X8.  [NewDefaultClientWithToken] never reads [authUrl].  It returns a
    client exactly when [VKE_URL] contains a slash or is the endpoint name
    [vke] itself; the client then has that value as its endpoint, the
    placeholder credentials, the default timeout, no cached offset, and the
    token as given: an empty token gives a client in signed mode. *)
Theorem NewDefaultClientWithToken_result (authUrl token : string) :
  NewDefaultClientWithToken VKE authUrl token
  = if contains_slash VKE || String.eqb VKE "vke"
    then Ok {| AppKey := "none"; AppSecret := "none"; endpoint := VKE;
               ClientTimeout := 0; Logger := false;
               timeDeltaMutex := false; timeDeltaDone := false; timeDelta := 0;
               Timeout := DefaultTimeout; openStackToken := token |}
    else Err (ErrConfig ("unknown endpoint '" +:+ VKE +:+
                         "', consider checking 'Endpoints' list of using an URL")).
Proof.
  unfold NewDefaultClientWithToken, NewClient, loadConfig, Endpoints.
  destruct (contains_slash VKE) eqn:Hslash; simpl.
  - rewrite (contains_slash_nonempty _ Hslash). reflexivity.
  - destruct (String.eqb VKE "vke") eqn:Hname; simpl.
    + apply String.eqb_eq in Hname. rewrite Hname at 1 2.
      rewrite lookup_singleton_eq. simpl. rewrite Hname. reflexivity.
    + apply String.eqb_neq in Hname.
      rewrite lookup_singleton_ne by congruence. reflexivity.
Qed.

(** ** The headers of a request *)

Lemma Header_Set_lookup name value (h : Header) k :
  Header_Set name value h !! k
  = if String.eqb (CanonicalMIMEHeaderKey name) k then Some [value] else h !! k.
Proof.
  unfold Header_Set.
  destruct (String.eqb (CanonicalMIMEHeaderKey name) k) eqn:E.
  - apply String.eqb_eq in E. subst k. apply lookup_insert_eq.
  - apply String.eqb_neq in E. apply lookup_insert_ne. exact E.
Qed.

Lemma fold_Header_Set_lookup headers : forall (h : Header) k,
  fold_left (fun h kv => Header_Set (fst kv) (snd kv) h) headers h !! k
  = match caller_value k headers with
    | Some v => Some [v]
    | None => h !! k
    end.
Proof.
  induction headers as [|[name value] rest IH]; intros h k; simpl; [reflexivity|].
  rewrite IH. destruct (caller_value k rest); [reflexivity|].
  rewrite Header_Set_lookup.
  destruct (String.eqb (CanonicalMIMEHeaderKey name) k); reflexivity.
Qed.

Lemma caller_value_last k headers name value :
  caller_value k (headers ++ [(name, value)])
  = if String.eqb (CanonicalMIMEHeaderKey name) k then Some value
    else caller_value k headers.
Proof.
  induction headers as [|[n v] rest IH]; simpl; [reflexivity|].
  rewrite IH. destruct (String.eqb (CanonicalMIMEHeaderKey name) k); [reflexivity|].
  reflexivity.
Qed.

(** X9.  The caller's headers win.  Under every canonical key the request
    has the single value of the last caller's header visited whose name has
    that canonical form, and what [NewRequest] injects itself (content type,
    accepted type, token) only where the caller has no such header.  So the
    header visited last is always in the request, and a caller's header named
    [x-auth-token] replaces the client's token. *)
Theorem caller_headers_win token body headers :
  (forall k,
      inject_headers fmt_Sprintf token body headers !! k
      = match caller_value k headers with
        | Some v => Some [v]
        | None => inject_headers fmt_Sprintf token body [] !! k
        end)
  /\ (forall name value,
        Header_Get name (inject_headers fmt_Sprintf token body (headers ++ [(name, value)]))
        = value)
  /\ (forall value,
        Header_Get "X-Auth-Token"
          (inject_headers fmt_Sprintf token body (headers ++ [("x-auth-token", value)]))
        = value).
Proof.
  assert (Hall : forall hs k,
             inject_headers fmt_Sprintf token body hs !! k
             = match caller_value k hs with
               | Some v => Some [v]
               | None => inject_headers fmt_Sprintf token body [] !! k
               end).
  { intros hs k. unfold inject_headers. rewrite fold_Header_Set_lookup. reflexivity. }
  split; [apply Hall|]. split.
  - intros name value. unfold Header_Get. rewrite Hall, caller_value_last.
    rewrite String.eqb_refl. reflexivity.
  - intros value. unfold Header_Get. rewrite Hall, caller_value_last. reflexivity.
Qed.

(** ** The timestamp of a signed request *)


(** ** [DrainNode] *)

(** X11.  [DrainNode] only validates its arguments: it returns [nil] exactly
    when the client and the node are not nil and the name is not empty,
    whatever [DrainWaitSeconds] is; a nil client is reported before a nil
    node, and a nil node before an empty name. *)
Theorem DrainNode_validates {K N : Type} (nodeName : string) (client : option K)
    (node : option N) (DrainWaitSeconds : Z) :
  (DrainNode nodeName client node DrainWaitSeconds = None
   <-> is_Some client /\ is_Some node /\ nodeName <> "")
  /\ (client = None ->
      DrainNode nodeName client node DrainWaitSeconds = Some "K8sClient not set")
  /\ (is_Some client -> node = None ->
      DrainNode nodeName client node DrainWaitSeconds = Some "node not set")
  /\ DrainNode nodeName client node DrainWaitSeconds = DrainNode nodeName client node 0.
Proof.
  unfold DrainNode. split; [|split; [|split]].
  - destruct client as [k|], node as [n|];
      destruct (String.eqb_spec nodeName "") as [E|E]; split;
      try discriminate;
      try (intros (H1 & H2 & H3);
           first [ contradiction
                 | destruct H1 as [? ?]; discriminate
                 | destruct H2 as [? ?]; discriminate ]).
    all: intros; eauto.
  - intros ->. reflexivity.
  - intros [k ->] ->. reflexivity.
  - reflexivity.
Qed.

(** ** Calls in bearer mode *)

(** With a token, [NewRequest] returns at once, with the world as it was. *)
Lemma bearer_NewRequest_returns call c w method path reqBody q headers needAuth :
  openStackToken c <> "" ->
  exists c1 r,
    NewRequestN call c w method path reqBody q headers needAuth = Ret (c1, w, r)
    /\ same_client c c1.
Proof.
  intros Htok. apply String.eqb_neq in Htok. unfold NewRequest.
  assert (Hsame : forall c0 : Client, same_client c0 c0) by (intros []; reflexivity).
  assert (Hset : forall t (c0 : Client), same_client c0 (set_ClientTimeout t c0))
    by (intros t []; reflexivity).
  destruct (marshalN reqBody) as [body|err]; [|eauto].
  destruct (http_NewRequest method _) as [url|err]; [|eauto].
  rewrite Htok. eauto.
Qed.

Lemma bearer_call_no_deadlock fuel :
  forall c w ctx method path reqBody result q headers needAuth,
    openStackToken c <> "" ->
    callN fuel c w ctx method path reqBody result q headers needAuth <> Deadlock.
Proof.
  induction fuel as [|fuel IH]; intros c w ctx method path reqBody result q headers
    needAuth Htok; [discriminate|].
  simpl. unfold CallAPIWithContext_body.
  destruct (bearer_NewRequest_returns (callN fuel) c w method path reqBody q headers
              needAuth Htok) as (c1 & r & -> & Hc1).
  apply same_client_fields in Hc1 as (_ & _ & _ & Htok1 & _).
  simpl. destruct r as [req|err]; [|discriminate].
  destruct (DoN c1 w _) as [w2 [response|err]]; [|discriminate].
  destruct (UnmarshalN response result) as [v1 [err|]]; [|discriminate].
  destruct (IsPossiblyCanadianTenantSyncError err _); [|discriminate].
  destruct (NewClientN VKE "none" "none" "") as [client|err2]; [|discriminate].
  simpl.
  destruct (callN fuel (set_openStackToken (openStackToken c1) client) w2 ctx method
              path reqBody v1 q headers needAuth) as [[[[c3 w3] v3] e3]| |] eqn:Hfb; simpl.
  - destruct e3; discriminate.
  - exfalso. eapply IH; [|exact Hfb]. simpl. congruence.
  - discriminate.
Qed.

(** A bearer call whose errors the classifier does not take for the
    cross-region condition returns at the first level. *)
Lemma bearer_no_failover_returns
    fuel c w ctx method path reqBody result q headers needAuth :
  openStackToken c <> "" ->
  (forall err url,
      http_NewRequest method (endpoint c +:+ path) = Ok url ->
      IsPossiblyCanadianTenantSyncError err url = false) ->
  exists r, callN (S fuel) c w ctx method path reqBody result q headers needAuth = Ret r.
Proof.
  intros Htok Hcls. simpl. unfold CallAPIWithContext_body.
  destruct (bearer_NewRequest_returns (callN fuel) c w method path reqBody q headers
              needAuth Htok) as (c1 & r & Hreq & Hc1).
  rewrite Hreq. simpl. destruct r as [req|err]; [|eauto].
  apply NewRequest_URL in Hreq.
  destruct (DoN c1 w _) as [w2 [response|err]]; [|eauto].
  destruct (UnmarshalN response result) as [v1 [err|]]; [|eauto].
  simpl. rewrite (Hcls err _ Hreq). eauto.
Qed.

(** X14.  A call in bearer mode never blocks on the mutex of the time offset,
    at any depth of fallback; and when the classifier takes no error of a
    request addressed to the fallback endpoint for the cross-region
    condition, the call returns after at most one fallback. *)
Theorem bearer_call_returns c w ctx method path reqBody result q headers needAuth :
  openStackToken c <> "" ->
  (forall fuel,
      callN fuel c w ctx method path reqBody result q headers needAuth <> Deadlock)
  /\
  ((forall client err url,
       NewClientN VKE "none" "none" "" = Ok client ->
       http_NewRequest method (endpoint client +:+ path) = Ok url ->
       IsPossiblyCanadianTenantSyncError err url = false) ->
   exists r : CallResult,
     forall fuel, (2 <= fuel)%nat ->
       callN fuel c w ctx method path reqBody result q headers needAuth = Ret r).
Proof.
  intros Htok. split; [intros fuel; apply bearer_call_no_deadlock, Htok|].
  intros Hcls.
  assert (H2 : exists r, callN 2 c w ctx method path reqBody result q headers needAuth = Ret r).
  { change (callN 2) with (bodyN (callN 1)). unfold CallAPIWithContext_body.
    destruct (bearer_NewRequest_returns (callN 1) c w method path reqBody q headers
                needAuth Htok) as (c1 & r & -> & Hc1).
    apply same_client_fields in Hc1 as (_ & _ & _ & Htok1 & _).
    cbn [mbind Outcome_bind]. destruct r as [req|err]; [|eauto].
    destruct (DoN c1 w _) as [w2 [response|err]]; [|eauto].
    destruct (UnmarshalN response result) as [v1 [err|]]; [|eauto].
    destruct (IsPossiblyCanadianTenantSyncError err _); [|eauto].
    destruct (NewClientN VKE "none" "none" "") as [client|err2] eqn:Hnew; [|eauto].
    destruct (bearer_no_failover_returns 0 (set_openStackToken (openStackToken c1) client)
                w2 ctx method path reqBody v1 q headers needAuth)
      as [[[[c3 w3] v3] e3] Hfb].
    - simpl. congruence.
    - intros err' url Hurl. eapply Hcls; [reflexivity | exact Hurl].
    - rewrite Hfb. cbn [mbind Outcome_bind]. destruct e3; eauto. }
  destruct H2 as [r H2]. exists r. intros fuel Hle.
  induction Hle as [|m Hle IH]; [exact H2|].
  destruct (call_approx_S VKE IsPossiblyCanadianTenantSyncError http_NewRequest RoundTrip
              json_string json_Marshal_other json_Unmarshal json_Unmarshal_APIError
              fmt_Sprintf local_clock m c w ctx method path reqBody result q headers needAuth)
    as [H|H].
  - congruence.
  - rewrite <- H. exact IH.
Qed.

(** ** An empty answer to the time request *)

(** X15.  A successful answer with an empty body is not an error for the
    time request: [UnmarshalResponse] leaves the timestamp at zero, so [Time]
    returns the Unix epoch and [Ping] returns [nil], after the one dispatch
    of the time request; [getTimeDelta] then caches the whole reading of the
    local clock as the offset. *)
Theorem empty_time_answer_is_epoch fuel c w url resp :
  openStackToken c <> "" ->
  http_NewRequest "GET" (endpoint c +:+ "/auth/time") = Ok url ->
  RoundTrip (Timeout c) (dispatched w)
    {| Method := "GET"; URL := url;
       ReqHeader := inject_headers fmt_Sprintf (openStackToken c) None [];
       ReqBody := ""; ReqContext := Background |} = Ok resp ->
  200 <= StatusCode resp < 300 ->
  RespBody resp = Ok "" ->
  exists c' w',
    Time VKE IsPossiblyCanadianTenantSyncError http_NewRequest RoundTrip json_string
      json_Marshal_other json_Unmarshal json_Unmarshal_APIError fmt_Sprintf local_clock
      (S fuel) c w = Ret (c', w', Ok (time_Unix 0))
    /\ Ping VKE IsPossiblyCanadianTenantSyncError http_NewRequest RoundTrip json_string
         json_Marshal_other json_Unmarshal json_Unmarshal_APIError fmt_Sprintf local_clock
         (S fuel) c w = Ret (c', w', None)
    /\ (timeDeltaDone c = false -> timeDeltaMutex c = false ->
        exists c'',
          getTimeDeltaN (callN (S fuel)) c w
          = Ret (c'', tick w', (time_Sub (local_clock (clock_reads w)) 0, None))
          /\ timeDeltaDone c'' = true
          /\ timeDelta c'' = time_Sub (local_clock (clock_reads w)) 0)
    /\ dispatched w'
       = dispatched w ++
         [{| Method := "GET"; URL := url;
             ReqHeader := inject_headers fmt_Sprintf (openStackToken c) None [];
             ReqBody := ""; ReqContext := Background |}].
Proof.
  intros Htok Hurl Hrt Hstatus Hbody. apply String.eqb_neq in Htok.
  set (req := {| Method := "GET"; URL := url;
                 ReqHeader := inject_headers fmt_Sprintf (openStackToken c) None [];
                 ReqBody := ""; ReqContext := Background |}) in *.
  set (w' := if Logger c
             then add_log (LogResponse resp) (add_dispatch req (add_log (LogRequest req) w))
             else add_dispatch req w).
  assert (Hclock : clock_reads w' = clock_reads w)
    by (unfold w'; destruct (Logger c); reflexivity).
  assert (Hcall : forall c0,
    openStackToken c0 = openStackToken c -> endpoint c0 = endpoint c ->
    Timeout c0 = Timeout c -> Logger c0 = Logger c ->
    callN (S fuel) c0 w Background "GET" "/auth/time" None (Some (VInt64 0)) [] [] false
    = Ret (set_ClientTimeout (Timeout c) c0, w', Some (VInt64 0), None)).
  { intros c0 E1 E2 E3 E4. simpl. unfold CallAPIWithContext_body, NewRequest. simpl.
    rewrite E1, E2, E3, Hurl, Htok. simpl.
    unfold Do, WithContext. simpl. fold req. rewrite E4. unfold w'.
    destruct (Logger c); simpl; rewrite Hrt; simpl;
      unfold UnmarshalResponse; rewrite Hbody;
      replace ((StatusCode resp <? 200) || (StatusCode resp >=? 300)) with false
        by (symmetry; apply orb_false_intro; lia);
      reflexivity. }
  exists (set_ClientTimeout (Timeout c) c), w'.
  unfold Time, Ping, getTime, GetUnAuth, CallAPI.
  rewrite (Hcall c) by reflexivity. simpl.
  split; [reflexivity|]. split; [reflexivity|].
  split; [|unfold w'; destruct (Logger c); reflexivity].
  intros Hdone Hmut. unfold getTimeDelta. rewrite Hdone, Hmut.
  cbn [negb timeDeltaDone set_mutex]. rewrite Hdone. cbn [negb].
  unfold getTime, GetUnAuth, CallAPI.
  change (bodyN (callN fuel)) with (callN (S fuel)).
  rewrite (Hcall (set_mutex true c)) by reflexivity. simpl.
  eexists. split.
  - unfold time_Unix. rewrite Hclock. reflexivity.
  - split; reflexivity.
Qed.

(** ** Errors before a response *)

(** X20.  An error met before a response is there is returned as it is and
    never leads to a fallback, whatever the classifier would say of it.  When
    [json.Marshal] or [http.NewRequest] fails, nothing is dispatched, no
    clock is read and the client is not touched, in either mode; when the
    exchange itself fails, the one request has been dispatched (and logged),
    and the sink is as it was. *)
Theorem errors_before_response_never_fail_over
    fuel c w ctx method path reqBody result q headers needAuth :
  (forall e,
      marshalN reqBody = Err e ->
      callN (S fuel) c w ctx method path reqBody result q headers needAuth
      = Ret (c, w, result, Some e))
  /\ (forall body e,
        marshalN reqBody = Ok body ->
        http_NewRequest method (endpoint c +:+ path) = Err e ->
        callN (S fuel) c w ctx method path reqBody result q headers needAuth
        = Ret (c, w, result, Some e))
  /\ (forall body url e,
        openStackToken c <> "" ->
        marshalN reqBody = Ok body ->
        http_NewRequest method (endpoint c +:+ path) = Ok url ->
        RoundTrip (Timeout c) (dispatched w)
          {| Method := method; URL := url;
             ReqHeader := inject_headers fmt_Sprintf (openStackToken c) body headers;
             ReqBody := default "" body; ReqContext := ctx |} = Err e ->
        callN (S fuel) c w ctx method path reqBody result q headers needAuth
        = Ret (set_ClientTimeout (Timeout c) c,
               add_dispatch
                 {| Method := method; URL := url;
                    ReqHeader := inject_headers fmt_Sprintf (openStackToken c) body headers;
                    ReqBody := default "" body; ReqContext := ctx |}
                 (if Logger c
                  then add_log
                         (LogRequest
                            {| Method := method; URL := url;
                               ReqHeader :=
                                 inject_headers fmt_Sprintf (openStackToken c) body headers;
                               ReqBody := default "" body; ReqContext := ctx |}) w
                  else w),
               result, Some e)).
Proof.
  split; [|split].
  - intros e Hm. simpl. unfold CallAPIWithContext_body, NewRequest.
    rewrite Hm. reflexivity.
  - intros body e Hm Hu. simpl. unfold CallAPIWithContext_body, NewRequest.
    rewrite Hm, Hu. reflexivity.
  - intros body url e Htok Hm Hu Hrt. apply String.eqb_neq in Htok.
    simpl. unfold CallAPIWithContext_body, NewRequest.
    rewrite Hm, Hu, Htok. simpl. unfold Do, WithContext. simpl.
    destruct (Logger c); simpl; rewrite Hrt; reflexivity.
Qed.

End MoreFacts.

(** ** The version URLs *)

Import apiversions.

Lemma string_app_assoc (a b c : string) : (a +:+ b) +:+ c = a +:+ (b +:+ c).
Proof.
  induction a as [|x a IH]; [reflexivity|].
  change (String x ((a +:+ b) +:+ c) = String x (a +:+ (b +:+ c))).
  rewrite IH. reflexivity.
Qed.

Lemma TrimRight_slash_app_slash (s : string) :
  TrimRight_slash (s +:+ "/") = TrimRight_slash s.
Proof.
  induction s as [|c s IH]; [reflexivity|].
  change (String c s +:+ "/") with (String c (s +:+ "/")).
  simpl. rewrite IH. reflexivity.
Qed.

Lemma TrimRight_slash_no_slash (s : string) :
  ends_with_slash (TrimRight_slash s) = false.
Proof.
  induction s as [|c s IH]; [reflexivity|].
  simpl. destruct (TrimRight_slash s) as [|c' s'] eqn:E.
  - destruct (Ascii.eqb c "/") eqn:Ec; simpl; [reflexivity | exact Ec].
  - exact IH.
Qed.

Lemma TrimRight_slash_fixed (s : string) :
  ends_with_slash s = false -> TrimRight_slash s = s.
Proof.
  induction s as [|c s IH]; [reflexivity|].
  simpl. destruct s as [|c' s'].
  - simpl. intros ->. reflexivity.
  - intros H. rewrite (IH H). reflexivity.
Qed.

(** X13.  The URLs of the version resources are normalised at their joints.
    [listURL] is the base endpoint without its trailing slashes, followed by
    one slash; [getURL] appends the version without its trailing slashes and
    one more slash, so a version written with or without a trailing slash
    gives the same URL, and a version without one is used as it is.  An empty
    version is not refused: it gives the list URL followed by a second
    slash. *)
Theorem version_urls_normalised (BaseEndpoint : string -> string) (Endpoint version : string) :
  (exists base,
      listURL BaseEndpoint Endpoint = base +:+ "/" /\ ends_with_slash base = false)
  /\ (exists v,
        getURL BaseEndpoint Endpoint version = listURL BaseEndpoint Endpoint +:+ v +:+ "/"
        /\ ends_with_slash v = false
        /\ (ends_with_slash version = false -> v = version))
  /\ getURL BaseEndpoint Endpoint (version +:+ "/") = getURL BaseEndpoint Endpoint version
  /\ getURL BaseEndpoint Endpoint "" = listURL BaseEndpoint Endpoint +:+ "/".
Proof.
  unfold getURL, listURL. repeat match goal with |- _ /\ _ => split end.
  - exists (TrimRight_slash (BaseEndpoint Endpoint)).
    split; [reflexivity | apply TrimRight_slash_no_slash].
  - exists (TrimRight_slash version).
    split; [rewrite !string_app_assoc; reflexivity|].
    split; [apply TrimRight_slash_no_slash | apply TrimRight_slash_fixed].
  - rewrite TrimRight_slash_app_slash. reflexivity.
  - simpl. rewrite !string_app_assoc. reflexivity.
Qed.

(** ** The logger *)

Lemma Outcome_map_bind {A B C D} (f : A -> C) (g : B -> D)
    (m1 m2 : Outcome A) (k1 k2 : A -> Outcome B) :
  Outcome_map f m1 = Outcome_map f m2 ->
  (forall a1 a2, f a1 = f a2 -> Outcome_map g (k1 a1) = Outcome_map g (k2 a2)) ->
  Outcome_map g (m1 ≫= k1) = Outcome_map g (m2 ≫= k2).
Proof.
  destruct m1 as [a1| |], m2 as [a2| |]; simpl; intros H Hk;
    try discriminate H; try reflexivity.
  apply Hk. by injection H.
Qed.

Lemma set_Logger_false_eq (c1 c2 : Client) :
  set_Logger false c1 = set_Logger false c2 -> c1 = set_Logger (Logger c1) c2.
Proof. destruct c1, c2; simpl; intros [=]; subst; reflexivity. Qed.

Lemma set_logged_nil_eq (w1 w2 : World) :
  set_logged [] w1 = set_logged [] w2 -> w1 = set_logged (logged w1) w2.
Proof. destruct w1, w2; simpl; intros [=]; subst; reflexivity. Qed.

Lemma set_Logger_self (c : Client) : set_Logger (Logger c) c = c.
Proof. destruct c; reflexivity. Qed.

Lemma unlogged_inv {A} c1 w1 (a1 : A) c2 w2 a2 :
  unlogged (c1, w1, a1) = unlogged (c2, w2, a2) ->
  c1 = set_Logger (Logger c1) c2 /\ w1 = set_logged (logged w1) w2 /\ a1 = a2.
Proof.
  intros H. split; [|split].
  - apply set_Logger_false_eq. exact (f_equal (fun r => fst (fst r)) H).
  - apply set_logged_nil_eq. exact (f_equal (fun r => snd (fst r)) H).
  - exact (f_equal snd H).
Qed.

Lemma unlogged_call_inv c1 w1 v1 e1 c2 w2 v2 e2 :
  unlogged_call (c1, w1, v1, e1) = unlogged_call (c2, w2, v2, e2) ->
  c1 = set_Logger (Logger c1) c2 /\ w1 = set_logged (logged w1) w2 /\ v1 = v2 /\ e1 = e2.
Proof.
  intros H. split; [|split; [|split]].
  - apply set_Logger_false_eq. exact (f_equal (fun r => fst (fst (fst r))) H).
  - apply set_logged_nil_eq. exact (f_equal (fun r => snd (fst (fst r))) H).
  - exact (f_equal (fun r => snd (fst r)) H).
  - exact (f_equal snd H).
Qed.

(** Two results that agree up to the logger: the first is the second with
    some logger and some record. *)
Ltac relate_logged :=
  repeat match goal with
  | H : unlogged (_, _, _) = unlogged (_, _, _) |- _ =>
      apply unlogged_inv in H as (? & ? & ?)
  | H : unlogged_call (_, _, _, _) = unlogged_call (_, _, _, _) |- _ =>
      apply unlogged_call_inv in H as (? & ? & ? & ?)
  | H : ?c1 = set_Logger (Logger ?c1) ?c2 |- _ =>
      let b := fresh "b" in set (b := Logger c1) in H; clearbody b; subst c1
  | H : ?w1 = set_logged (logged ?w1) ?w2 |- _ =>
      let l := fresh "l" in set (l := logged w1) in H; clearbody l; subst w1
  end; subst.

Section Quiet.

Variable VKE : string.
Variable IsPossiblyCanadianTenantSyncError : Error -> string -> bool.
Variable http_NewRequest : string -> string -> Result string.
Variable RoundTrip : Z -> list Request -> Request -> Result Response.
Variable json_string : string -> string.
Variable json_Marshal_other : string -> Result string.
Variable json_Unmarshal : string -> Value -> Value * option string.
Variable json_Unmarshal_APIError : string -> APIError -> APIError * option string.
Variable fmt_Sprintf : string -> string.
Variable local_clock : nat -> Z.

Local Abbreviation callN :=
  (CallAPIWithContext VKE IsPossiblyCanadianTenantSyncError http_NewRequest
     RoundTrip json_string json_Marshal_other json_Unmarshal
     json_Unmarshal_APIError fmt_Sprintf local_clock).
Local Abbreviation bodyN :=
  (CallAPIWithContext_body VKE IsPossiblyCanadianTenantSyncError http_NewRequest
     RoundTrip json_string json_Marshal_other json_Unmarshal
     json_Unmarshal_APIError fmt_Sprintf local_clock).
Local Abbreviation NewRequestN :=
  (NewRequest http_NewRequest json_string json_Marshal_other fmt_Sprintf local_clock).
Local Abbreviation getTimeDeltaN := (getTimeDelta local_clock).
Local Abbreviation marshalN := (marshal_reqBody json_string json_Marshal_other).
Local Abbreviation DoN := (Do RoundTrip).
Local Abbreviation UnmarshalN := (UnmarshalResponse json_Unmarshal json_Unmarshal_APIError).
Local Abbreviation NewClientN := (NewClient VKE).

Section Levels.

Variables call1 call2 :
  Client -> World -> Context -> string -> string -> option Payload ->
  option Value -> url_Values -> list (string * string) -> bool ->
  Outcome CallResult.

Hypothesis call_quiet :
  forall b l c w ctx method path reqBody result q headers needAuth,
    Outcome_map unlogged_call
      (call1 (set_Logger b c) (set_logged l w) ctx method path reqBody result q headers needAuth)
    = Outcome_map unlogged_call
        (call2 c w ctx method path reqBody result q headers needAuth).

Lemma getTime_quiet b l c w :
  Outcome_map unlogged (getTime call1 (set_Logger b c) (set_logged l w))
  = Outcome_map unlogged (getTime call2 c w).
Proof.
  unfold getTime, GetUnAuth, CallAPI.
  eapply Outcome_map_bind; [apply call_quiet|].
  intros [[[c1 w1] v1] e1] [[[c2 w2] v2] e2] Heq. relate_logged.
  destruct e2; reflexivity.
Qed.

Lemma getTimeDelta_quiet b l c w :
  Outcome_map unlogged (getTimeDeltaN call1 (set_Logger b c) (set_logged l w))
  = Outcome_map unlogged (getTimeDeltaN call2 c w).
Proof.
  unfold getTimeDelta. simpl.
  destruct (timeDeltaDone c); simpl; [reflexivity|].
  destruct (timeDeltaMutex c); [reflexivity|].
  change (set_mutex true (set_Logger b c)) with (set_Logger b (set_mutex true c)).
  eapply Outcome_map_bind; [apply getTime_quiet|].
  intros [[c1 w1] r1] [[c2 w2] r2] Heq. relate_logged.
  destruct r2; reflexivity.
Qed.

Lemma NewRequest_quiet b l c w method path reqBody q headers needAuth :
  Outcome_map unlogged
    (NewRequestN call1 (set_Logger b c) (set_logged l w) method path reqBody q headers needAuth)
  = Outcome_map unlogged
      (NewRequestN call2 c w method path reqBody q headers needAuth).
Proof.
  unfold NewRequest. simpl.
  destruct (marshalN reqBody) as [body|err]; [|reflexivity].
  destruct (http_NewRequest method _) as [url|err]; [|reflexivity].
  destruct (String.eqb (openStackToken c) ""); [|reflexivity].
  eapply Outcome_map_bind; [apply getTimeDelta_quiet|].
  intros [[c1 w1] r1] [[c2 w2] r2] Heq. relate_logged.
  destruct r2 as [d [e|]]; reflexivity.
Qed.

Lemma Do_quiet b l c w req :
  unlogged (let '(w', r) := DoN (set_Logger b c) (set_logged l w) req in
            (set_Logger b c, w', r))
  = unlogged (let '(w', r) := DoN c w req in (c, w', r)).
Proof.
  unfold Do. simpl.
  destruct b, (Logger c); simpl; destruct (RoundTrip _ _ req); reflexivity.
Qed.

Lemma body_quiet b l c w ctx method path reqBody result q headers needAuth :
  Outcome_map unlogged_call
    (bodyN call1 (set_Logger b c) (set_logged l w) ctx method path reqBody result q
       headers needAuth)
  = Outcome_map unlogged_call
      (bodyN call2 c w ctx method path reqBody result q headers needAuth).
Proof.
  unfold CallAPIWithContext_body.
  eapply Outcome_map_bind; [apply NewRequest_quiet|].
  intros [[c1 w1] r1] [[c2 w2] r2] Heq. relate_logged.
  destruct r2 as [req|err]; [|reflexivity].
  pose proof (Do_quiet b0 l0 c2 w2 (WithContext ctx req)) as Hdo.
  destruct (DoN (set_Logger b0 c2) (set_logged l0 w2) _) as [w3 r3].
  destruct (DoN c2 w2 _) as [w4 r4]. relate_logged.
  destruct r4 as [response|err]; [|reflexivity].
  destruct (UnmarshalN response result) as [v1 [err|]]; [|reflexivity].
  destruct (IsPossiblyCanadianTenantSyncError err _); [|reflexivity].
  destruct (NewClientN VKE "none" "none" "") as [client|err2]; [|reflexivity].
  simpl openStackToken.
  rewrite <- (set_Logger_self (set_openStackToken (openStackToken c2) client)) at 1.
  eapply Outcome_map_bind; [apply call_quiet|].
  intros [[[c5 w5] v5] e5] [[[c6 w6] v6] e6] Heq. relate_logged.
  destruct e6; reflexivity.
Qed.

End Levels.

(** X16.  The logger only observes.  A call on a client with a logger, or
    with another record of what was logged so far, has the outcome of the
    same call without them: the same requests are dispatched, the same
    answers decoded, the same result and error returned, the same fields of
    the client written. *)
Theorem logger_is_transparent fuel :
  forall b l c w ctx method path reqBody result q headers needAuth,
    Outcome_map unlogged_call
      (callN fuel (set_Logger b c) (set_logged l w) ctx method path reqBody result q
         headers needAuth)
    = Outcome_map unlogged_call
        (callN fuel c w ctx method path reqBody result q headers needAuth).
Proof.
  induction fuel as [|fuel IH]; intros; [reflexivity|].
  change (callN (S fuel)) with (bodyN (callN fuel)).
  apply body_quiet. exact IH.
Qed.

Lemma NewClient_no_Logger name appKey appSecret tenantid client :
  NewClientN name appKey appSecret tenantid = Ok client -> Logger client = false.
Proof.
  unfold NewClient, loadConfig.
  repeat match goal with
         | |- context [if ?b then _ else _] => destruct b
         end; simpl; intros [= <-]; reflexivity.
Qed.

Lemma same_client_Logger c c' : same_client c c' -> Logger c' = Logger c.
Proof. intros ->. reflexivity. Qed.

Lemma Do_logged c w req w' r :
  DoN c w req = (w', r) ->
  exists entries,
    logged w' = logged w ++ entries /\ (length entries <= 2)%nat /\
    (Logger c = false -> entries = []).
Proof.
  unfold Do. destruct (Logger c); simpl; destruct (RoundTrip _ _ req);
    intros [= <- <-]; simpl.
  - exists [LogRequest req; LogResponse a]. rewrite <- app_assoc. simpl.
    split; [reflexivity|]. split; [lia | discriminate].
  - exists [LogRequest req]. split; [reflexivity|]. simpl. split; [lia | discriminate].
  - exists []. rewrite app_nil_r. split; [reflexivity|]. simpl. split; [lia | reflexivity].
  - exists []. rewrite app_nil_r. split; [reflexivity|]. simpl. split; [lia | reflexivity].
Qed.

(** A call on a client without a logger logs nothing. *)
Lemma call_without_logger fuel :
  forall c w ctx method path reqBody result q headers needAuth c' w' v e,
    Logger c = false ->
    callN fuel c w ctx method path reqBody result q headers needAuth = Ret (c', w', v, e) ->
    logged w' = logged w.
Proof.
  induction fuel as [|fuel IH]; intros c w ctx method path reqBody result q headers
    needAuth c' w' v e Hlog; simpl; [discriminate|].
  unfold CallAPIWithContext_body. intros H.
  apply bind_Ret_inv in H as [[[c1 w1] r1] [H1 H2]].
  apply NewRequest_frame in H1 as (Hc & _ & Hl).
  apply same_client_Logger in Hc.
  destruct r1 as [req|err]; simpl in H2; [|by simplify_eq].
  destruct (DoN c1 w1 _) as [w2 r2] eqn:Hdo.
  apply Do_logged in Hdo as (entries & Hw2 & _ & Hnil).
  rewrite Hnil, app_nil_r in Hw2 by congruence.
  destruct r2 as [response|err]; simpl in H2; [|simplify_eq; congruence].
  destruct (UnmarshalN response result) as [v1 [err|]]; simpl in H2;
    [|simplify_eq; congruence].
  destruct (IsPossiblyCanadianTenantSyncError err _); simpl in H2;
    [|simplify_eq; congruence].
  destruct (NewClientN VKE "none" "none" "") as [client|err2] eqn:Hnew; simpl in H2;
    [|simplify_eq; congruence].
  apply NewClient_no_Logger in Hnew.
  apply bind_Ret_inv in H2 as [[[[c3 w3] v3] e3] [H3 H4]].
  apply IH in H3; [|exact Hnew].
  destruct e3; simplify_eq; congruence.
Qed.

(** A call only adds to the requests dispatched. *)
Lemma call_dispatched_grows fuel :
  forall c w ctx method path reqBody result q headers needAuth c' w' v e,
    callN fuel c w ctx method path reqBody result q headers needAuth = Ret (c', w', v, e) ->
    exists rest, dispatched w' = dispatched w ++ rest.
Proof.
  induction fuel as [|fuel IH]; intros c w ctx method path reqBody result q headers
    needAuth c' w' v e; simpl; [discriminate|].
  unfold CallAPIWithContext_body. intros H.
  apply bind_Ret_inv in H as [[[c1 w1] r1] [H1 H2]].
  apply NewRequest_frame in H1 as (_ & Hd & _).
  destruct r1 as [req|err]; simpl in H2.
  2:{ simplify_eq. exists []. rewrite app_nil_r. congruence. }
  destruct (DoN c1 w1 _) as [w2 r2] eqn:Hdo. apply Do_dispatched in Hdo.
  assert (Hone : exists rest, dispatched w2 = dispatched w ++ rest)
    by (rewrite Hdo, Hd; eauto).
  destruct r2 as [response|err]; simpl in H2; [|by simplify_eq].
  destruct (UnmarshalN response result) as [v1 [err|]]; simpl in H2; [|by simplify_eq].
  destruct (IsPossiblyCanadianTenantSyncError err _); simpl in H2; [|by simplify_eq].
  destruct (NewClientN VKE "none" "none" "") as [client|err2]; simpl in H2;
    [|by simplify_eq].
  apply bind_Ret_inv in H2 as [[[[c3 w3] v3] e3] [H3 H4]].
  apply IH in H3 as [rest3 H3]. destruct Hone as [rest2 Hone].
  assert (exists rest, dispatched w3 = dispatched w ++ rest)
    by (exists (rest2 ++ rest3); rewrite H3, Hone, app_assoc; reflexivity).
  destruct e3; by simplify_eq.
Qed.

(** X17.  The fallback is not logged.  The fallback client is a new client
    without a logger, so of all the exchanges of one call only the first is
    seen by the caller's logger: the call adds at most two entries to the
    log, the request and the response of its first exchange, and none when
    the client has no logger. *)
Theorem only_first_exchange_logged
    fuel c w ctx method path reqBody result q headers needAuth c' w' v e :
  callN fuel c w ctx method path reqBody result q headers needAuth = Ret (c', w', v, e) ->
  exists entries : list LogEntry,
    logged w' = logged w ++ entries
    /\ (length entries <= 2)%nat
    /\ (Logger c = false -> entries = [])
    /\ (forall req, In (LogRequest req) entries ->
          exists rest, dispatched w' = dispatched w ++ req :: rest).
Proof.
  destruct fuel as [|fuel]; simpl; [discriminate|].
  unfold CallAPIWithContext_body. intros H.
  apply bind_Ret_inv in H as [[[c1 w1] r1] [H1 H2]].
  apply NewRequest_frame in H1 as (Hc & Hd & Hl).
  apply same_client_Logger in Hc.
  assert (Hnone : forall w0 : World, logged w0 = logged w ->
            exists entries : list LogEntry,
              logged w0 = logged w ++ entries /\ (length entries <= 2)%nat /\
              (Logger c = false -> entries = []) /\
              (forall req, In (LogRequest req) entries ->
                 exists rest, dispatched w0 = dispatched w ++ req :: rest)).
  { intros w0 E. exists []. rewrite app_nil_r. split; [exact E|].
    split; [simpl; lia|]. split; [reflexivity|]. intros req []. }
  destruct r1 as [req|err]; simpl in H2; [|simplify_eq; apply Hnone, Hl].
  destruct (DoN c1 w1 _) as [w2 r2] eqn:Hdo.
  assert (Hfirst : forall w0 : World,
            logged w0 = logged w2 ->
            (exists rest, dispatched w0 = dispatched w2 ++ rest) ->
            exists entries : list LogEntry,
              logged w0 = logged w ++ entries /\ (length entries <= 2)%nat /\
              (Logger c = false -> entries = []) /\
              (forall req, In (LogRequest req) entries ->
                 exists rest, dispatched w0 = dispatched w ++ req :: rest)).
  { intros w0 E [rest Erest].
    pose proof (Do_dispatched _ _ _ _ _ _ Hdo) as Hd2.
    unfold Do in Hdo.
    destruct (Logger c1) eqn:Hlog; simpl in Hdo;
      destruct (RoundTrip _ _ (WithContext ctx req)) as [resp|err0];
      injection Hdo as <- <-; simpl in E, Erest, Hd2.
    - exists [LogRequest (WithContext ctx req); LogResponse resp].
      rewrite E, Hl, <- app_assoc. split; [reflexivity|].
      split; [simpl; lia|]. split; [congruence|].
      intros r [[= <-]|[?|[]]]; [|discriminate].
      exists rest. rewrite Erest, Hd, <- app_assoc. reflexivity.
    - exists [LogRequest (WithContext ctx req)].
      rewrite E, Hl. split; [reflexivity|].
      split; [simpl; lia|]. split; [congruence|].
      intros r [[= <-]|[]].
      exists rest. rewrite Erest, Hd, <- app_assoc. reflexivity.
    - exists []. rewrite app_nil_r, E, Hl. split; [reflexivity|].
      split; [simpl; lia|]. split; [reflexivity|]. intros r [].
    - exists []. rewrite app_nil_r, E, Hl. split; [reflexivity|].
      split; [simpl; lia|]. split; [reflexivity|]. intros r []. }
  assert (Hhere : exists rest, dispatched w2 = dispatched w2 ++ rest)
    by (exists []; rewrite app_nil_r; reflexivity).
  destruct r2 as [response|err]; simpl in H2; [|simplify_eq; by apply Hfirst].
  destruct (UnmarshalN response result) as [v1 [err|]]; simpl in H2;
    [|simplify_eq; by apply Hfirst].
  destruct (IsPossiblyCanadianTenantSyncError err _); simpl in H2;
    [|simplify_eq; by apply Hfirst].
  destruct (NewClientN VKE "none" "none" "") as [client|err2] eqn:Hnew; simpl in H2;
    [|simplify_eq; by apply Hfirst].
  apply NewClient_no_Logger in Hnew.
  apply bind_Ret_inv in H2 as [[[[c3 w3] v3] e3] [H3 H4]].
  pose proof H3 as Hquiet. apply call_without_logger in Hquiet; [|exact Hnew].
  assert (Hgrow : exists rest, dispatched w3 = dispatched w2 ++ rest).
  { eapply call_dispatched_grows, H3. }
  destruct e3; simplify_eq; by apply Hfirst.
Qed.

(** ** The timeout of an exchange *)

(** [NewRequest] uses [call] for the time request only, on the world it is
    given. *)
Lemma NewRequest_call_ext call1 call2 c w method path reqBody q headers needAuth :
  call1 (set_mutex true c) w Background "GET" "/auth/time" None (Some (VInt64 0))
    [] [] false
  = call2 (set_mutex true c) w Background "GET" "/auth/time" None (Some (VInt64 0))
      [] [] false ->
  NewRequestN call1 c w method path reqBody q headers needAuth
  = NewRequestN call2 c w method path reqBody q headers needAuth.
Proof.
  intros H. unfold NewRequest, TimeDelta, getTimeDelta, getTime, GetUnAuth, CallAPI.
  destruct (marshalN reqBody) as [body|err]; [|reflexivity].
  destruct (http_NewRequest method _) as [url|err]; [|reflexivity].
  destruct (String.eqb (openStackToken c) ""); [|reflexivity].
  destruct (negb (timeDeltaDone c)); [|reflexivity].
  destruct (timeDeltaMutex c); [reflexivity|].
  simpl. rewrite H. reflexivity.
Qed.

(** The request [NewRequest] returns goes out under the client's [Timeout]. *)
Lemma NewRequest_ClientTimeout call c w method path reqBody q headers needAuth c1 w1 req :
  NewRequestN call c w method path reqBody q headers needAuth = Ret (c1, w1, Ok req) ->
  ClientTimeout c1 = Timeout c1.
Proof.
  unfold NewRequest.
  destruct (marshalN reqBody) as [body|err]; [|intros; by simplify_eq].
  destruct (http_NewRequest method _) as [url|err]; [|intros; by simplify_eq].
  destruct (String.eqb (openStackToken c) ""); simpl.
  - intros H. apply bind_Ret_inv in H as [[[c2 w2] [d [e|]]] [_ H]];
      simpl in H; [by simplify_eq|]. injection H as <- _ _. reflexivity.
  - intros [= <- _ _]. reflexivity.
Qed.

Lemma NewClient_Timeout name appKey appSecret tenantid client :
  NewClientN name appKey appSecret tenantid = Ok client -> Timeout client = DefaultTimeout.
Proof.
  unfold NewClient, loadConfig.
  repeat match goal with
         | |- context [if ?b then _ else _] => destruct b
         end; simpl; intros [= <-]; reflexivity.
Qed.

Lemma same_client_Timeout c c' : same_client c c' -> Timeout c' = Timeout c.
Proof. intros ->. reflexivity. Qed.

(** X21.  The first exchange of a call runs under the [Timeout] of its
    client, and every later one, that is every exchange of a fallback, under
    the default timeout of 180 s, not under the caller's [Timeout].  A call
    has the same outcome with every transport that agrees with the given one
    on a first exchange under the client's [Timeout] and on later exchanges
    under the default timeout: what the transport does with a later exchange
    under the client's [Timeout], with a first exchange under the default
    one, or under the timeout the [http.Client] had before, is never asked
    for. *)
Theorem exchanges_use_Timeout
    (RoundTrip' : Z -> list Request -> Request -> Result Response) fuel :
  forall c w ctx method path reqBody result q headers needAuth,
    (forall req,
        RoundTrip' (Timeout c) (dispatched w) req
        = RoundTrip (Timeout c) (dispatched w) req) ->
    (forall before req,
        (length (dispatched w) < length before)%nat ->
        RoundTrip' DefaultTimeout before req = RoundTrip DefaultTimeout before req) ->
    CallAPIWithContext VKE IsPossiblyCanadianTenantSyncError http_NewRequest RoundTrip'
      json_string json_Marshal_other json_Unmarshal json_Unmarshal_APIError fmt_Sprintf
      local_clock fuel c w ctx method path reqBody result q headers needAuth
    = callN fuel c w ctx method path reqBody result q headers needAuth.
Proof.
  induction fuel as [|fuel IH];
    intros c w ctx method path reqBody result q headers needAuth Hfirst Hlater;
    [reflexivity|].
  simpl. unfold CallAPIWithContext_body.
  rewrite (NewRequest_call_ext _ (callN fuel)) by (apply IH; assumption).
  destruct (NewRequestN (callN fuel) c w method path reqBody q headers needAuth)
    as [[[c1 w1] [req|err]]| |] eqn:Hreq; simpl; try reflexivity.
  pose proof (NewRequest_ClientTimeout _ _ _ _ _ _ _ _ _ _ _ _ Hreq) as Hct.
  apply NewRequest_frame in Hreq as (Hsame & Hd & _).
  apply same_client_Timeout in Hsame.
  assert (Hdo : Do RoundTrip' c1 w1 (WithContext ctx req) = DoN c1 w1 (WithContext ctx req)).
  { unfold Do.
    assert (Hbefore : dispatched (if Logger c1
                                  then add_log (LogRequest (WithContext ctx req)) w1
                                  else w1) = dispatched w)
      by (destruct (Logger c1); exact Hd).
    rewrite Hbefore, Hct, Hsame, Hfirst. reflexivity. }
  rewrite Hdo.
  destruct (DoN c1 w1 _) as [w2 [response|err]] eqn:Hw2; simpl; try reflexivity.
  apply Do_dispatched in Hw2.
  destruct (UnmarshalN response result) as [v1 [err|]]; simpl; try reflexivity.
  destruct (IsPossiblyCanadianTenantSyncError err _); simpl; try reflexivity.
  destruct (NewClientN VKE "none" "none" "") as [client|err2] eqn:Hnew; simpl;
    try reflexivity.
  apply NewClient_Timeout in Hnew.
  assert (Hlen : (length (dispatched w) < length (dispatched w2))%nat)
    by (rewrite Hw2, Hd, length_app; simpl; lia).
  rewrite IH; [reflexivity | |].
  - intros req'. simpl. rewrite Hnew. apply Hlater. exact Hlen.
  - intros before req' Hb. apply Hlater. lia.
Qed.

End Quiet.

(** ** Concurrent callers of [getTimeDelta]: the mutex, the cache, and the end *)

Lemma held_init n : held (init n).
Proof. intros H. discriminate H. Qed.

(** The deferred [Unlock] is the only release: while the mutex is held, some
    goroutine is between its [Lock] and its [Unlock]. *)
Lemma held_step s ch s' : held s -> step s ch = Some s' -> held s'.
Proof.
  intros Hheld. unfold step.
  destruct (s_pcs s !! who ch) as [p|] eqn:Hi; [|discriminate].
  assert (Hlt : (who ch < length (s_pcs s))%nat) by (eapply lookup_lt_Some; eauto).
  assert (Hother : forall p', holds p = false -> s_mutex s = true ->
            exists j q, <[who ch := p']> (s_pcs s) !! j = Some q /\ holds q = true).
  { intros p' Hp Hm. destruct (Hheld Hm) as (j & q & Hj & Hq).
    exists j, q. split; [|exact Hq].
    rewrite list_lookup_insert_ne; [exact Hj|].
    intros E. rewrite <- E, Hi in Hj. injection Hj as <-. congruence. }
  assert (Hself : forall (l : list pc) p', (who ch < length l)%nat -> holds p' = true ->
            exists j q, <[who ch := p']> l !! j = Some q /\ holds q = true).
  { intros l p' Hl Hp. exists (who ch), p'. split; [|exact Hp].
    apply list_lookup_insert_eq. exact Hl. }
  destruct p as [| | |t| |l|r|r].
  - intros [= <-] Hm. simpl in *. apply Hother; [reflexivity | exact Hm].
  - destruct (s_mutex s); [discriminate|]. intros [= <-] _. simpl.
    apply Hself; [exact Hlt | reflexivity].
  - destruct (s_done s); [|destruct (fetch ch)]; intros [= <-] _; simpl;
      apply Hself; solve [exact Hlt | reflexivity].
  - intros [= <-] _. simpl. apply Hself; [exact Hlt | reflexivity].
  - intros [= <-] _. simpl. apply Hself; [exact Hlt | reflexivity].
  - intros [= <-] Hm. simpl in *. destruct l.
    + apply Hself; [exact Hlt | reflexivity].
    + apply Hother; [reflexivity | exact Hm].
  - intros [= <-] Hm. discriminate Hm.
  - discriminate.
Qed.

Lemma held_run schedule : forall s s', held s -> run s schedule = Some s' -> held s'.
Proof.
  induction schedule as [|ch rest IH]; simpl; intros s s' I H.
  - by simplify_eq.
  - destruct (step s ch) as [s1|] eqn:Hstep; [|discriminate].
    eapply IH; [|exact H]. eapply held_step; eauto.
Qed.

(** X18.  In every state the concurrent callers can reach: at most one of
    them is between [Lock] and [Unlock], and the mutex is held exactly when
    one is; and once the flag is set, no step of any caller unsets it or
    writes the offset again. *)
Theorem racers_mutex_and_cache n s :
  reachable n s ->
  (forall i j p q,
      s_pcs s !! i = Some p -> s_pcs s !! j = Some q ->
      holds p = true -> holds q = true -> i = j)
  /\ (s_mutex s = true <-> exists i p, s_pcs s !! i = Some p /\ holds p = true)
  /\ (forall ch s',
        step s ch = Some s' -> s_done s = true ->
        s_done s' = true /\ s_delta s' = s_delta s).
Proof.
  intros [schedule Hrun].
  pose proof (inv_run _ _ _ (inv_init n) Hrun) as I.
  pose proof (held_run _ _ _ (held_init n) Hrun) as Hheld.
  split; [exact (inv_excl _ I)|]. split.
  - split; [exact Hheld|]. intros (i & p & Hi & Hp). exact (inv_mutex _ I i p Hi Hp).
  - intros ch s'. unfold step.
    destruct (s_pcs s !! who ch) as [p|] eqn:Hi; [|discriminate].
    destruct p as [| | |t| |l|r|r]; intros Hstep Hdone.
    + injection Hstep as <-. split; [exact Hdone | reflexivity].
    + destruct (s_mutex s); [discriminate|]. injection Hstep as <-.
      split; [exact Hdone | reflexivity].
    + rewrite Hdone in Hstep. injection Hstep as <-. split; [exact Hdone | reflexivity].
    + destruct (inv_writing _ I _ _ Hi eq_refl) as [Hnd _]. congruence.
    + injection Hstep as <-. split; reflexivity.
    + injection Hstep as <-. split; [exact Hdone | reflexivity].
    + injection Hstep as <-. split; [exact Hdone | reflexivity].
    + discriminate.
Qed.

Lemma sum_list_insert (l : list nat) i x y :
  l !! i = Some x -> (sum_list (<[i := y]> l) + x = sum_list l + y)%nat.
Proof.
  revert i. induction l as [|a l IH]; intros [|i]; simpl; try discriminate.
  - intros [= ->]. lia.
  - intros H. specialize (IH i H). lia.
Qed.

Lemma sum_rank_bound (l : list pc) : (sum_list (rank <$> l) <= 7 * length l)%nat.
Proof.
  induction l as [|p l IH]; [simpl; lia|].
  change (sum_list (rank <$> p :: l)) with (rank p + sum_list (rank <$> l))%nat.
  change (length (p :: l)) with (S (length l)).
  assert (rank p <= 7)%nat by (destruct p; simpl; lia). lia.
Qed.

(** A goroutine that moves from [p] to [p'] in a state otherwise the same. *)
Lemma move_rank s i p p' s0 :
  s_pcs s !! i = Some p -> s_pcs s0 = s_pcs s -> (rank p < rank p')%nat ->
  (total_rank s < total_rank (move i p' s0))%nat
  /\ length (s_pcs (move i p' s0)) = length (s_pcs s).
Proof.
  intros Hi Hs Hlt. unfold total_rank, move. simpl. rewrite Hs. split.
  - rewrite list_fmap_insert.
    pose proof (sum_list_insert (rank <$> s_pcs s) i (rank p) (rank p')) as H.
    rewrite list_lookup_fmap, Hi in H. specialize (H eq_refl). lia.
  - apply length_insert.
Qed.

(** Every step takes the moving goroutine to a later point. *)
Lemma step_rank s ch s' :
  step s ch = Some s' ->
  (total_rank s < total_rank s')%nat /\ length (s_pcs s') = length (s_pcs s).
Proof.
  unfold step.
  destruct (s_pcs s !! who ch) as [p|] eqn:Hi; [|discriminate].
  destruct p as [| | |t| |l|r|r].
  - intros [= <-]. eapply move_rank; [exact Hi | reflexivity|].
    destruct (s_done s); simpl; lia.
  - destruct (s_mutex s); [discriminate|]. intros [= <-].
    eapply move_rank; [exact Hi | reflexivity | simpl; lia].
  - destruct (s_done s); [|destruct (fetch ch)]; intros [= <-];
      (eapply move_rank; [exact Hi | reflexivity | simpl; lia]).
  - intros [= <-]. eapply move_rank; [exact Hi | reflexivity | simpl; lia].
  - intros [= <-]. eapply move_rank; [exact Hi | reflexivity | simpl; lia].
  - intros [= <-]. eapply move_rank; [exact Hi | reflexivity|].
    destruct l; simpl; lia.
  - intros [= <-]. eapply move_rank; [exact Hi | reflexivity | simpl; lia].
  - discriminate.
Qed.

Lemma run_rank schedule : forall s s',
  run s schedule = Some s' ->
  (total_rank s + length schedule <= total_rank s')%nat
  /\ length (s_pcs s') = length (s_pcs s).
Proof.
  induction schedule as [|ch rest IH]; simpl; intros s s' H.
  - simplify_eq. split; [lia | reflexivity].
  - destruct (step s ch) as [s1|] eqn:Hstep; [|discriminate].
    apply step_rank in Hstep as [Hlt Hlen]. apply IH in H as [Hle Hlen'].
    split; [lia | congruence].
Qed.

(** X19.  The concurrent callers all return, provided the time fetch does.
    No run of [n] callers has more than [7 * n] steps; and in every state
    they can reach in which some caller has not returned, some caller can
    take a step: a caller waiting in [Lock] is never left behind by a mutex
    nobody will release. *)
Theorem racers_all_return n :
  (forall schedule s, run (init n) schedule = Some s -> (length schedule <= 7 * n)%nat)
  /\ (forall s,
        reachable n s ->
        (exists i p, s_pcs s !! i = Some p /\ is_returned p = false) ->
        exists ch s', step s ch = Some s')
  /\ (forall s,
        reachable n s ->
        (forall ch, step s ch = None) ->
        forall i p, s_pcs s !! i = Some p -> is_returned p = true).
Proof.
  assert (Hprogress : forall s,
            reachable n s ->
            (exists i p, s_pcs s !! i = Some p /\ is_returned p = false) ->
            exists ch s', step s ch = Some s').
  { intros s [schedule Hrun] (i & p & Hi & Hp).
    pose proof (held_run _ _ _ (held_init n) Hrun) as Hheld.
    assert (Hgo : forall j q,
              s_pcs s !! j = Some q -> is_returned q = false -> q <> WantLock ->
              exists ch s', step s ch = Some s').
    { intros j q Hj Hq Hw.
      exists {| who := j; fetch := unused; now := 0 |}.
      unfold step. simpl. rewrite Hj.
      destruct q; try discriminate Hq; try congruence; eauto.
      destruct (s_done s); eauto. }
    assert (Hcase : p = WantLock \/ p <> WantLock)
      by (destruct p; first [left; reflexivity | right; discriminate]).
    destruct Hcase as [->|Hne]; [|eapply Hgo; eauto].
    destruct (s_mutex s) eqn:Hm.
    - destruct (Hheld Hm) as (j & q & Hj & Hq).
      apply (Hgo j q Hj); destruct q; try discriminate Hq; try reflexivity; discriminate.
    - exists {| who := i; fetch := unused; now := 0 |}.
      unfold step. simpl. rewrite Hi, Hm. eauto. }
  split; [|split; [exact Hprogress|]].
  - intros schedule s Hrun. apply run_rank in Hrun as [Hle Hlen].
    pose proof (sum_rank_bound (s_pcs s)) as Hb. fold (total_rank s) in Hb.
    simpl in Hlen. rewrite length_replicate in Hlen. rewrite Hlen in Hb. lia.
  - intros s Hreach Hstuck i p Hi.
    destruct (is_returned p) eqn:Hp; [reflexivity|]. exfalso.
    destruct (Hprogress s Hreach) as (ch & s' & Hstep); [eauto|].
    rewrite Hstuck in Hstep. discriminate.
Qed.

(** ** The properties above on concrete inputs *)


Lemma bearer_call_returns_witness :
  (forall fuel,
      Demo.call Demo.crossRegion Demo.fallback_answers fuel Demo.eu_bearer empty_World
        Background "GET" "/auth/time" None (Some (VInt64 0)) [] [] false <> Deadlock)
  /\
  exists r : CallResult,
    forall fuel, (2 <= fuel)%nat ->
      Demo.call Demo.crossRegion Demo.fallback_answers fuel Demo.eu_bearer empty_World
        Background "GET" "/auth/time" None (Some (VInt64 0)) [] [] false = Ret r.
Proof.
  destruct (bearer_call_returns Demo.VKE Demo.crossRegion Demo.http_NewRequest
              Demo.fallback_answers Demo.json_string Demo.json_Marshal_other
              Demo.json_Unmarshal Demo.json_Unmarshal_APIError Demo.fmt_Sprintf
              Demo.local_clock Demo.eu_bearer empty_World Background
              "GET" "/auth/time" None (Some (VInt64 0)) [] [] false)
    as [Hfree Hret]; [discriminate|].
  split; [exact Hfree|]. apply Hret.
  intros client err url Hnew Hurl.
  vm_compute in Hnew. injection Hnew as <-.
  vm_compute in Hurl. injection Hurl as <-.
  destruct err; try reflexivity.
  unfold Demo.crossRegion. apply andb_false_r.
Defined.

Lemma empty_time_answer_is_epoch_witness :
  exists c' w',
    Time Demo.VKE Demo.crossRegion Demo.http_NewRequest silent Demo.json_string
      Demo.json_Marshal_other Demo.json_Unmarshal Demo.json_Unmarshal_APIError
      Demo.fmt_Sprintf Demo.local_clock 1 Demo.ca_bearer empty_World
    = Ret (c', w', Ok 0)
    /\ Ping Demo.VKE Demo.crossRegion Demo.http_NewRequest silent Demo.json_string
         Demo.json_Marshal_other Demo.json_Unmarshal Demo.json_Unmarshal_APIError
         Demo.fmt_Sprintf Demo.local_clock 1 Demo.ca_bearer empty_World
       = Ret (c', w', None)
    /\ (exists c'',
         getTimeDelta Demo.local_clock (Demo.call Demo.crossRegion silent 1)
           Demo.ca_bearer empty_World
         = Ret (c'', tick w', (1700000100 * Second, None))
         /\ timeDeltaDone c'' = true
         /\ timeDelta c'' = 1700000100 * Second)
    /\ dispatched w' = [Demo.time_request Demo.VKE].
Proof.
  destruct (empty_time_answer_is_epoch Demo.VKE Demo.crossRegion Demo.http_NewRequest
              silent Demo.json_string Demo.json_Marshal_other Demo.json_Unmarshal
              Demo.json_Unmarshal_APIError Demo.fmt_Sprintf Demo.local_clock
              0 Demo.ca_bearer empty_World
              "https://ca.vke.example/auth/time"
              {| StatusCode := 200; RespHeader := {[ "X-Vke-Queryid" := ["q-1"] ]};
                 RespBody := Ok "" |})
    as (c' & w' & HTime & HPing & Hdelta & Hdisp);
    [discriminate | reflexivity | reflexivity | simpl; lia | reflexivity |].
  exists c', w'. split; [exact HTime|]. split; [exact HPing|].
  split; [|exact Hdisp].
  destruct (Hdelta eq_refl eq_refl) as (c'' & H1 & H2 & H3).
  exists c''. split; [exact H1|]. split; [exact H2 | exact H3].
Defined.

Lemma only_first_exchange_logged_witness :
  exists w',
    (exists c' v e,
        Demo.call Demo.crossRegion Demo.fallback_answers 2
          (set_Logger true Demo.eu_bearer) empty_World
          Background "GET" "/auth/time" None (Some (VInt64 0)) [] [] false
        = Ret (c', w', v, e))
    /\ length (dispatched w') = 2%nat
    /\ length (logged w') = 2%nat
    /\ exists entries : list LogEntry,
         logged w' = logged empty_World ++ entries
         /\ (length entries <= 2)%nat
         /\ (Logger (set_Logger true Demo.eu_bearer) = false -> entries = [])
         /\ (forall req, In (LogRequest req) entries ->
               exists rest, dispatched w' = dispatched empty_World ++ req :: rest).
Proof.
  eexists. split; [eexists _, _, _; vm_compute; reflexivity|].
  split; [reflexivity|]. split; [reflexivity|].
  eapply (only_first_exchange_logged Demo.VKE Demo.crossRegion Demo.http_NewRequest
            Demo.fallback_answers Demo.json_string Demo.json_Marshal_other
            Demo.json_Unmarshal Demo.json_Unmarshal_APIError Demo.fmt_Sprintf
            Demo.local_clock 2 (set_Logger true Demo.eu_bearer) empty_World
            Background "GET" "/auth/time" None (Some (VInt64 0)) [] [] false).
  vm_compute. reflexivity.
Defined.

Lemma racers_mutex_and_cache_witness :
  reachable 2 one_waits
  /\ (forall i j p q,
        s_pcs one_waits !! i = Some p -> s_pcs one_waits !! j = Some q ->
        holds p = true -> holds q = true -> i = j)
  /\ (s_mutex one_waits = true
      <-> exists i p, s_pcs one_waits !! i = Some p /\ holds p = true)
  /\ (forall ch s',
        step one_waits ch = Some s' -> s_done one_waits = true ->
        s_done s' = true /\ s_delta s' = s_delta one_waits).
Proof.
  assert (H : reachable 2 one_waits).
  { exists first_fails. vm_compute. reflexivity. }
  split; [exact H|].
  exact (racers_mutex_and_cache 2 one_waits H).
Defined.
Lemma DrainNode_validates_witness :
  DrainNode "node-1" (Some tt) (Some tt) 30 = None
  /\ DrainNode "node-1" (None : option unit) (None : option unit) 30
     = Some "K8sClient not set".
Proof.
  split.
  - apply (proj1 (DrainNode_validates "node-1" (Some tt) (Some tt) 30)).
    split; [eauto|]. split; [eauto | discriminate].
  - apply (proj1 (proj2 (DrainNode_validates "node-1" None None 30))). reflexivity.
Defined.

Lemma errors_before_response_never_fail_over_witness :
  Demo.call Demo.anyRegion unreachable 1 Demo.ca_bearer empty_World
    Background "GET" "/cluster/c1/nodegroups" None (Some (VNodePools [])) [] [] true
  = Ret (set_ClientTimeout DefaultTimeout Demo.ca_bearer,
         add_dispatch
           {| Method := "GET"; URL := "https://ca.vke.example/cluster/c1/nodegroups";
              ReqHeader := {[ "Accept" := ["application/json"];
                              "X-Auth-Token" := ["gAAAAABl"] ]};
              ReqBody := ""; ReqContext := Background |}
           empty_World,
         Some (VNodePools []), Some (ErrTransport "connection refused")).
Proof.
  eapply eq_trans.
  - unfold Demo.call, Demo.call_in.
    eapply (proj2 (proj2 (errors_before_response_never_fail_over Demo.VKE Demo.anyRegion
                            Demo.http_NewRequest unreachable Demo.json_string
                            Demo.json_Marshal_other Demo.json_Unmarshal
                            Demo.json_Unmarshal_APIError Demo.fmt_Sprintf Demo.local_clock
                            0 Demo.ca_bearer empty_World Background "GET"
                            "/cluster/c1/nodegroups" None (Some (VNodePools [])) [] [] true))
              None "https://ca.vke.example/cluster/c1/nodegroups"
              (ErrTransport "connection refused"));
      [discriminate | reflexivity | reflexivity | reflexivity].
  - vm_compute. reflexivity.
Defined.

Lemma racers_all_return_witness :
  (length first_fails <= 7 * 2)%nat
  /\ exists ch s', step one_waits ch = Some s'.
Proof.
  destruct (racers_all_return 2) as (Hlen & Hprogress & _).
  split.
  - apply (Hlen first_fails one_waits). vm_compute. reflexivity.
  - apply Hprogress.
    + exists first_fails. vm_compute. reflexivity.
    + exists 1%nat, WantLock. split; reflexivity.
Defined.

Lemma exchanges_use_Timeout_witness :
  Demo.call_in Demo.VKE Demo.crossRegion timed_answers 2 eu_hurried empty_World
    Background "GET" "/auth/time" None (Some (VInt64 0)) [] [] false
  = Demo.call Demo.crossRegion Demo.fallback_answers 2 eu_hurried empty_World
      Background "GET" "/auth/time" None (Some (VInt64 0)) [] [] false
  /\
  Demo.call_in Demo.VKE Demo.crossRegion timed_answers 2 eu_hurried empty_World
    Background "GET" "/auth/time" None (Some (VInt64 0)) [] [] false
  = Ret (set_ClientTimeout (30 * Second) eu_hurried,
         add_dispatch (Demo.time_request Demo.VKE)
           (add_dispatch (Demo.time_request "https://eu.vke.example") empty_World),
         Some (VInt64 1700000000), None).
Proof.
  split; [|vm_compute; reflexivity].
  unfold Demo.call, Demo.call_in.
  apply exchanges_use_Timeout.
  - intros req. reflexivity.
  - intros [|r0 before] req Hlen; [simpl in Hlen; lia | reflexivity].
Defined.
